(** * nimsync benchmark chart generator: a verified model of
      [scripts/generate_charts.py]

    The script locates the most recent [benchmark_results_*] directory, loads
    up to three CSV tables from it and, for each one, computes a few derived
    statistics that are drawn on a chart.

    Numbers are modelled in exact rational arithmetic ([Qc], canonical
    rationals, so that equality is Leibniz equality) extended with the
    non-finite values that pandas and numpy produce ([NaN], infinities).
    The exact model leaves out the rounding of binary floating point; where
    rounding decides a property, module [Binary64] embeds the operation a
    second time on binary64 numbers.  The pandas operations the script
    calls ([idxmax], [rolling(window).mean()], [quantile], [mean], [min],
    [max]) are embedded with their documented default behaviour. *)

From Stdlib Require Import ZArith QArith Qcanon Qround.
From Stdlib Require Import String Ascii Bool Lia List.
From Stdlib Require Import Sorted Permutation.
From Corelib Require PrimFloat.
Import ListNotations.

Set Implicit Arguments.

(** ** Python exceptions and results *)

Module Py.

(** The exceptions that the modelled paths can raise.  [SystemExit] carries
    the status passed to [sys.exit]. *)
Inductive exn : Type :=
| ValueError
| KeyError
| IndexError
| ZeroDivisionError
| SystemExit (status : Z).

Inductive result (A : Type) : Type :=
| Ok (a : A)
| Raise (e : exn).

Arguments Ok {A} a.
Arguments Raise {A} e.

(** Status with which the interpreter leaves after running [main()]: 0 on a
    normal return, the argument of [sys.exit], and 1 after a traceback. *)
Definition exit_status {A} (r : result A) : Z :=
  match r with
  | Ok _ => 0
  | Raise (SystemExit c) => c
  | Raise _ => 1
  end%Z.

End Py.
Import Py.

(** ** Float values: exact rationals plus the IEEE non-finite values *)

Module Float.

Inductive fval : Type :=
| Fin (q : Qc)
| PInf
| NInf
| NaN.

Definition Qc_ltb (x y : Qc) : bool := negb (Qle_bool y x).
Definition Qc_leb (x y : Qc) : bool := Qle_bool x y.
Definition Qc_eqb (x y : Qc) : bool := Qeq_bool x y.

(** Sign of an infinity-producing quotient or product. *)
Definition signed_inf (positive : bool) : fval :=
  if positive then PInf else NInf.

Definition fneg (a : fval) : fval :=
  match a with
  | Fin x => Fin (- x)
  | PInf => NInf
  | NInf => PInf
  | NaN => NaN
  end.

Definition fadd (a b : fval) : fval :=
  match a, b with
  | NaN, _ | _, NaN => NaN
  | Fin x, Fin y => Fin (x + y)
  | PInf, NInf | NInf, PInf => NaN
  | PInf, _ | _, PInf => PInf
  | NInf, _ | _, NInf => NInf
  end.

Definition fsub (a b : fval) : fval := fadd a (fneg b).

Definition fmul (a b : fval) : fval :=
  match a, b with
  | NaN, _ | _, NaN => NaN
  | Fin x, Fin y => Fin (x * y)
  | Fin x, PInf | PInf, Fin x =>
      if Qc_eqb x 0 then NaN else signed_inf (Qc_ltb 0 x)
  | Fin x, NInf | NInf, Fin x =>
      if Qc_eqb x 0 then NaN else signed_inf (Qc_ltb x 0)
  | PInf, PInf | NInf, NInf => PInf
  | PInf, NInf | NInf, PInf => NInf
  end.

(** numpy scalar division: a zero divisor raises nothing, it yields [NaN]
    for 0/0 and an infinity otherwise (a warning is printed). *)
Definition fdiv (a b : fval) : fval :=
  match a, b with
  | NaN, _ | _, NaN => NaN
  | Fin x, Fin y =>
      if Qc_eqb y 0
      then (if Qc_eqb x 0 then NaN else signed_inf (Qc_ltb 0 x))
      else Fin (x / y)
  | Fin _, (PInf | NInf) => Fin 0
  | PInf, Fin y => signed_inf (Qc_leb 0 y)
  | NInf, Fin y => signed_inf (Qc_ltb y 0)
  | (PInf | NInf), (PInf | NInf) => NaN
  end.

Definition is_finite (a : fval) : bool :=
  match a with Fin _ => true | _ => false end.

End Float.
Import Float.

(** ** Sorting

    [sorted] is Python's built-in of the same name restricted to lists: a
    stable ascending sort.  It is written as an insertion sort, which returns
    the same list as any other stable sort.  The same function orders the
    samples inside [quantile]. *)

Section Sort.

Variable A : Type.
Variable leb : A -> A -> bool.

Fixpoint insert (x : A) (l : list A) : list A :=
  match l with
  | [] => [x]
  | y :: r => if leb x y then x :: l else y :: insert x r
  end.

Fixpoint sorted (l : list A) : list A :=
  match l with
  | [] => []
  | x :: r => insert x (sorted r)
  end.

(** [l[-1]]: the last item, [IndexError] on the empty list. *)
Fixpoint last_item (l : list A) : result A :=
  match l with
  | [] => Raise IndexError
  | [x] => Ok x
  | _ :: r => last_item r
  end.

Definition le (x y : A) : Prop := leb x y = true.

End Sort.

(** ** The pandas operations the script calls, on a numeric column *)

Module Pandas.

Local Open Scope Qc_scope.

Definition Qc_of_Z (z : Z) : Qc := Q2Qc (inject_Z z).
Definition Qc_of_nat (n : nat) : Qc := Qc_of_Z (Z.of_nat n).

(** A numeric column without missing values. *)
Definition Series := list Qc.

Definition sum (s : Series) : Qc := fold_right Qcplus 0 s.

(** [Series.mean()]: [NaN] on an empty column. *)
Definition mean (s : Series) : fval :=
  match s with
  | [] => NaN
  | _ => Fin (sum s / Qc_of_nat (length s))
  end.

Definition Qc_min (x y : Qc) : Qc := if Qc_leb x y then x else y.
Definition Qc_max (x y : Qc) : Qc := if Qc_leb x y then y else x.

(** [Series.min()] and [Series.max()]: [NaN] on an empty column. *)
Definition min (s : Series) : fval :=
  match s with
  | [] => NaN
  | x :: r => Fin (fold_left Qc_min r x)
  end.

Definition max (s : Series) : fval :=
  match s with
  | [] => NaN
  | x :: r => Fin (fold_left Qc_max r x)
  end.

(** Scan for the position of the maximum: a later value replaces the best
    one so far only when it is strictly greater. *)
Fixpoint argmax_from (best_i : nat) (best : Qc) (i : nat) (s : Series)
  : nat :=
  match s with
  | [] => best_i
  | x :: r =>
      if Qc_ltb best x
      then argmax_from i x (S i) r
      else argmax_from best_i best (S i) r
  end.

(** [Series.idxmax()] on the default [RangeIndex] that [read_csv] builds:
    the label is the row position.  An empty column raises.  pandas raises
    [ValueError] on an empty numeric column and may raise [TypeError] on the
    untyped empty column that a header-only file loads to; the model does not
    tell the two apart and names the exception [ValueError]. *)
Definition idxmax (s : Series) : result nat :=
  match s with
  | [] => Raise ValueError
  | x :: r => Ok (argmax_from 0 x 1 r)
  end.

(** [df.loc[label, column]] with a row label: [KeyError] when no row has
    that label. *)
Definition loc {A} (column : list A) (label : nat) : result A :=
  match nth_error column label with
  | Some v => Ok v
  | None => Raise KeyError
  end.

(** [Series.rolling(window=w).mean()].  [min_periods] is left at its
    default, the window size: a position that has fewer than [w] values
    behind it (itself included) yields [NaN].  [seen] holds the values
    before the current one, most recent first. *)
Fixpoint rolling_mean_from (window : nat) (seen : list Qc) (s : Series)
  : list fval :=
  match s with
  | [] => []
  | x :: r =>
      let seen' := x :: seen in
      (if (length seen' <? window)%nat
       then NaN
       else mean (firstn window seen'))
        :: rolling_mean_from window seen' r
  end.

Definition rolling_mean (window : nat) (s : Series) : list fval :=
  rolling_mean_from window [] s.

(** [Series.quantile(q)] with the default [interpolation='linear'], which
    is numpy's [percentile]: the samples are sorted, the virtual index is
    [(n - 1) * q], and the result interpolates linearly between the sample
    at the floor of that index and the next one.  A [q] outside [0, 1]
    raises [ValueError]; an empty column gives [NaN]. *)
Definition quantile (s : Series) (q : Qc) : result fval :=
  if Qc_leb 0 q && Qc_leb q 1 then
    match s with
    | [] => Ok NaN
    | _ =>
        let arr := sorted Qc_leb s in
        let n := length s in
        let virtual_index := Qc_of_nat (n - 1) * q in
        let previous := Z.to_nat (Qfloor virtual_index) in
        if Qc_leb (Qc_of_nat (n - 1)) virtual_index
        then Ok (Fin (nth (n - 1) arr 0))
        else
          let gamma := virtual_index - Qc_of_nat previous in
          let a := nth previous arr 0 in
          let b := nth (S previous) arr 0 in
          Ok (Fin (a + (b - a) * gamma))
    end
  else Raise ValueError.

End Pandas.

(** ** Tables, figures and the run log *)

Module Sweep.
(** A row of [buffer_sizes.csv]. *)
Record row : Type := Row {
  buffer_size : Z;
  throughput_ops_per_sec : Qc
}.
End Sweep.

Module Sustained.
(** A row of [sustained_timeseries.csv]. *)
Record row : Type := Row {
  test_name : string;
  elapsed_time_sec : Qc;
  throughput_ops_per_sec : Qc
}.
End Sustained.

(** What a results directory holds: each file is either missing or loads to
    a table with the declared columns.  A file that exists but does not load
    (empty or ragged, a column missing or not numeric) is outside this type:
    there [read_csv] or the column lookup raises, and nothing below is
    stated about such files. *)
Record ResultsDir : Type := {
  buffer_sizes_csv : option (list Sweep.row);
  sustained_timeseries_csv : option (list Sustained.row);
  latency_samples_csv : option (list Qc)
}.

(** The working directory: the names in it and, for a name, the files below
    it. *)
Record FileSystem : Type := {
  cwd_entries : list string;
  results_in : string -> ResultsDir
}.

Inductive chart : Type :=
| BufferSizes
| SustainedTimeseries
| LatencyDistribution.

(** The data that reaches the plotting calls. *)
Record SweepFigure : Type := {
  sweep_line : list (Z * Qc);
  optimal_size : Z;
  optimal_throughput : Qc;
  annotate_xy : Z * Qc;
  annotate_xytext : Z * Qc
}.

Record SustainedFigure : Type := {
  raw_line : list (Qc * Qc);
  window_size : nat;
  rolling_line : list (Qc * fval);
  avg_throughput : fval;
  min_throughput : fval;
  max_throughput : fval;
  variance : fval
}.

Record LatencyFigure : Type := {
  hist_samples : list Qc;
  hist_bins : nat;
  p50 : fval;
  p99 : fval;
  p999 : fval
}.

Inductive figure : Type :=
| FigSweep (f : SweepFigure)
| FigSustained (f : SustainedFigure)
| FigLatency (f : LatencyFigure).

(** What a run does that can be observed, in order: a chart function is
    entered, a line is printed, a figure is saved. *)
Inductive event : Type :=
| Call (c : chart)
| PrintSkipping (c : chart)
| PrintNoTenSecondData
| Savefig (c : chart) (f : figure)
| PrintGenerated (c : chart)
| PrintNoResultsDirs
| PrintUsing (dir : string)
| PrintComplete (dir : string).

(** ** A monad for printing code that may raise *)

Module Run.

Definition M (A : Type) : Type := list event -> list event * result A.

Definition ret {A} (a : A) : M A := fun log => (log, Ok a).

Definition bind {A B} (m : M A) (k : A -> M B) : M B :=
  fun log =>
    match m log with
    | (log', Ok a) => k a log'
    | (log', Raise e) => (log', Raise e)
    end.

Definition emit (e : event) : M unit := fun log => (log ++ [e], Ok tt).

Definition raise {A} (e : exn) : M A := fun log => (log, Raise e).

Definition lift {A} (r : result A) : M A := fun log => (log, r).

Definition run {A} (m : M A) : list event * result A := m [].

End Run.
Import Run.

Notation "x <- m ;; k" := (bind m (fun x => k))
  (at level 61, m at next level, right associativity).
Notation "m ;; k" := (bind m (fun _ => k))
  (at level 61, right associativity).

(** ** The script *)

Module GenerateCharts.

Local Open Scope Qc_scope.

Definition million : Qc := Q2Qc (1000000 # 1).

Definition target_test : string := "10-second sustained load".

(** [plot_buffer_sizes] *)
Definition plot_buffer_sizes (d : ResultsDir) : M unit :=
  emit (Call BufferSizes) ;;
  match buffer_sizes_csv d with
  | None => emit (PrintSkipping BufferSizes)
  | Some df =>
      let sizes := map Sweep.buffer_size df in
      let throughput := map Sweep.throughput_ops_per_sec df in
      let line := combine sizes (map (fun v => v / million) throughput) in
      optimal_idx <- lift (Pandas.idxmax throughput) ;;
      optimal_size <- lift (Pandas.loc sizes optimal_idx) ;;
      raw_optimum <- lift (Pandas.loc throughput optimal_idx) ;;
      let optimal_throughput := raw_optimum / million in
      emit (Savefig BufferSizes (FigSweep {|
        sweep_line := line;
        optimal_size := optimal_size;
        optimal_throughput := optimal_throughput;
        annotate_xy := (optimal_size, optimal_throughput);
        annotate_xytext :=
          ((optimal_size * 2)%Z, optimal_throughput * Q2Qc (9 # 10))
      |})) ;;
      emit (PrintGenerated BufferSizes)
  end.

Definition derived_window (n : nat) : nat := Nat.max 1 (n / 50).

(** [plot_sustained_timeseries] *)
Definition plot_sustained_timeseries (d : ResultsDir) : M unit :=
  emit (Call SustainedTimeseries) ;;
  match sustained_timeseries_csv d with
  | None => emit (PrintSkipping SustainedTimeseries)
  | Some df =>
      let df_10s :=
        filter (fun r => String.eqb (Sustained.test_name r) target_test) df
      in
      if (length df_10s =? 0)%nat then emit PrintNoTenSecondData
      else
        let elapsed := map Sustained.elapsed_time_sec df_10s in
        let throughput := map Sustained.throughput_ops_per_sec df_10s in
        let raw := combine elapsed (map (fun v => v / million) throughput) in
        let window_size := derived_window (length df_10s) in
        let rolling_avg := Pandas.rolling_mean window_size throughput in
        let rolling :=
          combine elapsed (map (fun v => fdiv v (Fin million)) rolling_avg)
        in
        let avg_throughput := fdiv (Pandas.mean throughput) (Fin million) in
        let min_throughput := fdiv (Pandas.min throughput) (Fin million) in
        let max_throughput := fdiv (Pandas.max throughput) (Fin million) in
        let variance :=
          fmul (fdiv (fsub max_throughput min_throughput) avg_throughput)
               (Fin (Q2Qc (100 # 1)))
        in
        emit (Savefig SustainedTimeseries (FigSustained {|
          raw_line := raw;
          window_size := window_size;
          rolling_line := rolling;
          avg_throughput := avg_throughput;
          min_throughput := min_throughput;
          max_throughput := max_throughput;
          variance := variance
        |})) ;;
        emit (PrintGenerated SustainedTimeseries)
  end.

(** [plot_latency_distribution] *)
Definition plot_latency_distribution (d : ResultsDir) : M unit :=
  emit (Call LatencyDistribution) ;;
  match latency_samples_csv d with
  | None => emit (PrintSkipping LatencyDistribution)
  | Some latencies_ns =>
      p50 <- lift (Pandas.quantile latencies_ns (Q2Qc (50 # 100))) ;;
      p99 <- lift (Pandas.quantile latencies_ns (Q2Qc (99 # 100))) ;;
      p999 <- lift (Pandas.quantile latencies_ns (Q2Qc (999 # 1000))) ;;
      emit (Savefig LatencyDistribution (FigLatency {|
        hist_samples := latencies_ns;
        hist_bins := 50;
        p50 := p50;
        p99 := p99;
        p999 := p999
      |})) ;;
      emit (PrintGenerated LatencyDistribution)
  end.

(** [glob.glob("benchmark_results_*")]: the names of the working directory
    that start with the prefix, in no particular order. *)
Definition glob_results (fs : FileSystem) : list string :=
  filter (String.prefix "benchmark_results_") (cwd_entries fs).

(** [main] *)
Definition main (fs : FileSystem) : M unit :=
  let results_dirs := glob_results fs in
  match results_dirs with
  | [] => emit PrintNoResultsDirs ;; raise (SystemExit 1)
  | _ => ret tt
  end ;;
  latest_dir <- lift (last_item (sorted String.leb results_dirs)) ;;
  emit (PrintUsing latest_dir) ;;
  plot_buffer_sizes (results_in fs latest_dir) ;;
  plot_sustained_timeseries (results_in fs latest_dir) ;;
  plot_latency_distribution (results_in fs latest_dir) ;;
  emit (PrintComplete latest_dir).

End GenerateCharts.

(** ** Observations on a run *)

Module Outcome.

Import GenerateCharts.

Definition chart_eqb (a b : chart) : bool :=
  match a, b with
  | BufferSizes, BufferSizes
  | SustainedTimeseries, SustainedTimeseries
  | LatencyDistribution, LatencyDistribution => true
  | _, _ => false
  end.

(** The chart function of a chart kind. *)
Definition build (c : chart) : ResultsDir -> M unit :=
  match c with
  | BufferSizes => plot_buffer_sizes
  | SustainedTimeseries => plot_sustained_timeseries
  | LatencyDistribution => plot_latency_distribution
  end.

(** Position of a chart in the order in which [main] calls them. *)
Definition position (c : chart) : nat :=
  match c with
  | BufferSizes => 0
  | SustainedTimeseries => 1
  | LatencyDistribution => 2
  end.

Definition input_missing (c : chart) (d : ResultsDir) : bool :=
  match c with
  | BufferSizes =>
      match buffer_sizes_csv d with None => true | _ => false end
  | SustainedTimeseries =>
      match sustained_timeseries_csv d with None => true | _ => false end
  | LatencyDistribution =>
      match latency_samples_csv d with None => true | _ => false end
  end.

(** The chart function of [c] was entered. *)
Definition attempted (c : chart) (log : list event) : bool :=
  existsb (fun e => match e with Call c' => chart_eqb c c' | _ => false end)
          log.

(** The warning that the input of [c] was not found was printed. *)
Definition warned (c : chart) (log : list event) : bool :=
  existsb (fun e =>
             match e with PrintSkipping c' => chart_eqb c c' | _ => false end)
          log.

(** The figure of [c] was written. *)
Definition rendered (c : chart) (log : list event) : bool :=
  existsb (fun e =>
             match e with Savefig c' _ => chart_eqb c c' | _ => false end)
          log.

Definition raises {A} (m : M A) : option exn :=
  match snd (run m) with
  | Raise e => Some e
  | Ok _ => None
  end.

(** The locator found a directory: the list that [glob] returns is not
    empty. *)
Definition located (fs : FileSystem) : bool :=
  match glob_results fs with [] => false | _ => true end.

(** The directory that [main] uses, when there is one. *)
Definition latest_dir (fs : FileSystem) : result string :=
  last_item (sorted String.leb (glob_results fs)).

(** Isolation of chart builds, as a property of one run: whenever a chart
    function raises, every chart is still entered and [main] returns. *)
Definition chart_failures_isolated (fs : FileSystem) : Prop :=
  located fs = true ->
  forall latest c e,
    latest_dir fs = Ok latest ->
    raises (build c (results_in fs latest)) = Some e ->
    (forall c', attempted c' (fst (run (main fs))) = true) /\
    snd (run (main fs)) = Ok tt.

(** A missing input never costs more than its own chart, as a property of
    one run: the warning is printed, every chart is entered and the exit
    status is 0. *)
Definition missing_input_only_skips (fs : FileSystem) : Prop :=
  located fs = true ->
  forall latest c,
    latest_dir fs = Ok latest ->
    input_missing c (results_in fs latest) = true ->
    warned c (fst (run (main fs))) = true /\
    (forall c', attempted c' (fst (run (main fs))) = true) /\
    exit_status (snd (run (main fs))) = 0%Z.

End Outcome.

(** ** The statistics as the design document words them

    These follow the prose of the design, not the script; they are compared
    with the pandas operations below. *)

Module Stated.

Local Open Scope Qc_scope.

(** The [w] values ending at position [i]. *)
Definition trailing (w i : nat) (s : Pandas.Series) : list Qc :=
  firstn w (skipn (S i - w) s).

(** Rolling average that averages over however many values exist when
    fewer than [w] are available. *)
Definition rolling_average (w : nat) (s : Pandas.Series) : list fval :=
  map (fun i => Pandas.mean (trailing (Nat.min w (S i)) i s))
      (seq 0 (length s)).

(** The median by the sorted-array midpoint. *)
Definition median (s : Pandas.Series) : fval :=
  match s with
  | [] => NaN
  | _ =>
      let arr := sorted Qc_leb s in
      let n := length s in
      if Nat.even n
      then Fin ((nth (n / 2 - 1) arr 0 + nth (n / 2) arr 0) / Q2Qc (2 # 1))
      else Fin (nth (n / 2) arr 0)
  end.

End Stated.

(** ** The quantile in binary64

    The same [Series.quantile(q)], on binary64 numbers and with the
    operations in the order numpy performs them. *)

Module Binary64.

Import PrimFloat.

Local Open Scope float_scope.

(** A position as a float.  Positions are small integers, which binary64
    holds exactly. *)
Fixpoint of_nat (k : nat) : float :=
  match k with
  | O => 0
  | S k' => of_nat k' + 1
  end.

(** [floor] of a virtual index that lies between 0 and [k]: the largest
    position not above it. *)
Fixpoint floor_upto (h : float) (k : nat) : nat :=
  match k with
  | O => O
  | S k' => if of_nat k <=? h then k else floor_upto h k'
  end.

(** numpy's [_lerp]: [a + (b - a) * t], replaced by
    [b - (b - a) * (1 - t)] where [t >= 0.5]. *)
Definition lerp (a b t : float) : float :=
  let diff_b_a := b - a in
  if 0.5 <=? t then b - diff_b_a * (1 - t) else a + diff_b_a * t.

(** pandas hands [q * 100] to [numpy.percentile], which divides by 100
    again. *)
Definition quantile (s : list float) (q : float) : result float :=
  if (0 <=? q) && (q <=? 1) then
    match s with
    | [] => Ok nan
    | _ =>
        let arr := sorted PrimFloat.leb s in
        let n := length s in
        let virtual_index := of_nat (n - 1) * (q * 100 / 100) in
        let previous := floor_upto virtual_index (n - 1) in
        if of_nat (n - 1) <=? virtual_index
        then Ok (nth (n - 1)%nat arr nan)
        else
          let gamma := virtual_index - of_nat previous in
          Ok (lerp (nth previous arr nan) (nth (S previous) arr nan) gamma)
    end
  else Raise ValueError.

(** The median by the sorted-array midpoint, as the design document words
    it. *)
Definition median (s : list float) : float :=
  match s with
  | [] => nan
  | _ =>
      let arr := sorted PrimFloat.leb s in
      let n := length s in
      if Nat.even n
      then (nth (n / 2 - 1)%nat arr nan + nth (n / 2)%nat arr nan) / 2
      else nth (n / 2)%nat arr nan
  end.


End Binary64.

(** ** Sample inputs *)

Module Examples.

Import GenerateCharts.

Definition qz (z : Z) : Qc := Q2Qc (inject_Z z).

Definition sustained_rows : list Sustained.row :=
  [ Sustained.Row target_test (qz 0) (qz 100);
    Sustained.Row "warmup" (qz 1) (qz 5);
    Sustained.Row target_test (qz 2) (qz 300) ].

Definition sweep_rows : list Sweep.row :=
  [ Sweep.Row 1 (qz 100); Sweep.Row 2 (qz 400);
    Sweep.Row 4 (qz 900); Sweep.Row 8 (qz 200) ].

(** A results directory whose sweep table has a header and no rows. *)
Definition dir_empty_sweep : ResultsDir := {|
  buffer_sizes_csv := Some [];
  sustained_timeseries_csv := Some sustained_rows;
  latency_samples_csv := Some [qz 10; qz 20]
|}.

(** The same, without the latency file. *)
Definition dir_empty_sweep_no_latency : ResultsDir := {|
  buffer_sizes_csv := Some [];
  sustained_timeseries_csv := Some sustained_rows;
  latency_samples_csv := None
|}.

(** A results directory with the sweep table only. *)
Definition dir_sweep_only : ResultsDir := {|
  buffer_sizes_csv := Some sweep_rows;
  sustained_timeseries_csv := None;
  latency_samples_csv := None
|}.

Definition one_run : list string :=
  ["README.md"; "benchmark_results_20240305_101500"]%string.

Definition fs_empty_sweep : FileSystem := {|
  cwd_entries := one_run;
  results_in := fun _ => dir_empty_sweep
|}.

Definition fs_empty_sweep_no_latency : FileSystem := {|
  cwd_entries := one_run;
  results_in := fun _ => dir_empty_sweep_no_latency
|}.

Definition fs_sweep_only : FileSystem := {|
  cwd_entries := one_run;
  results_in := fun _ => dir_sweep_only
|}.

Definition fs_three_runs : FileSystem := {|
  cwd_entries :=
    ["benchmark_results_2024-01-01"; "benchmark_results_2024-03-05";
     "notes.txt"; "benchmark_results_2024-02-10"]%string;
  results_in := fun _ => dir_sweep_only
|}.

(** The three names of the design document's example. *)
Definition fs_run_names : FileSystem := {|
  cwd_entries := ["run_2024-01-01"; "run_2024-03-05"; "run_2024-02-10"]%string;
  results_in := fun _ => dir_sweep_only
|}.

Definition fs_no_runs : FileSystem := {|
  cwd_entries := ["README.md"; "run_2024-01-01"]%string;
  results_in := fun _ => dir_sweep_only
|}.

(** One hundred samples 1, 2, ..., 100. *)
Definition hundred : Pandas.Series :=
  map (fun n => qz (Z.of_nat n)) (seq 1 100).

(** A sweep table whose rows are not in ascending size order. *)
Definition sweep_unordered : list Sweep.row :=
  [ Sweep.Row 8 (qz 200); Sweep.Row 1 (qz 100) ].

Definition dir_sweep_unordered : ResultsDir := {|
  buffer_sizes_csv := Some sweep_unordered;
  sustained_timeseries_csv := None;
  latency_samples_csv := None
|}.



Definition dir_sustained : ResultsDir := {|
  buffer_sizes_csv := None;
  sustained_timeseries_csv := Some sustained_rows;
  latency_samples_csv := None
|}.

End Examples.

(** * Facts *)

(** ** Orders used by the script *)

Section StringOrder.

Local Open Scope string_scope.

(** Python compares [str] values code point by code point; on UTF-8 encoded
    names that is the byte-wise order [String.leb]. *)
Lemma string_leb_trans (x y z : string) :
  (x <=? y) = true -> (y <=? z) = true -> (x <=? z) = true.
Proof.
  unfold String.leb. revert y z.
  induction x as [|a x IH]; intros [|b y] [|c z]; simpl;
    try congruence; try (intros; reflexivity).
  unfold Ascii.compare.
  destruct (N.compare_spec (N_of_ascii a) (N_of_ascii b)) as [Eab|Lab|Gab];
    destruct (N.compare_spec (N_of_ascii b) (N_of_ascii c)) as [Ebc|Lbc|Gbc];
    try congruence; intros Hxy Hyz.
  - rewrite Eab, Ebc, N.compare_refl. apply (IH y z); assumption.
  - rewrite Eab. apply N.compare_lt_iff in Lbc. rewrite Lbc. reflexivity.
  - rewrite <- Ebc. apply N.compare_lt_iff in Lab. rewrite Lab. reflexivity.
  - assert (L : (N_of_ascii a < N_of_ascii c)%N) by (eapply N.lt_trans; eauto).
    apply N.compare_lt_iff in L. rewrite L. reflexivity.
Qed.

End StringOrder.

Section QcOrder.

Local Open Scope Qc_scope.

Lemma Qc_leb_le (x y : Qc) : Qc_leb x y = true <-> x <= y.
Proof. unfold Qc_leb, Qcle. apply Qle_bool_iff. Qed.

Lemma Qc_ltb_lt (x y : Qc) : Qc_ltb x y = true <-> x < y.
Proof.
  unfold Qc_ltb. rewrite negb_true_iff. split.
  - intros H. apply Qcnot_le_lt. intro Hle.
    apply Qc_leb_le in Hle. unfold Qc_leb in Hle. congruence.
  - intros H. destruct (Qle_bool y x) eqn:E; [|reflexivity].
    apply (Qc_leb_le y x) in E. exfalso. eapply Qclt_not_le; eauto.
Qed.

Lemma Qc_ltb_ge (x y : Qc) : Qc_ltb x y = false <-> y <= x.
Proof.
  unfold Qc_ltb. rewrite negb_false_iff. apply Qc_leb_le.
Qed.

Lemma Qc_eqb_eq (x y : Qc) : Qc_eqb x y = true <-> x = y.
Proof.
  unfold Qc_eqb. rewrite Qeq_bool_iff. split.
  - apply Qc_is_canon.
  - intros ->. reflexivity.
Qed.

Lemma Qc_eqb_neq (x y : Qc) : Qc_eqb x y = false <-> x <> y.
Proof.
  rewrite <- Qc_eqb_eq. destruct (Qc_eqb x y); split; congruence.
Qed.

Lemma Qc_leb_total (x y : Qc) : Qc_leb x y = true \/ Qc_leb y x = true.
Proof.
  rewrite !Qc_leb_le. destruct (Qclt_le_dec x y) as [H|H].
  - left. apply Qclt_le_weak, H.
  - right. exact H.
Qed.

Lemma Qc_leb_trans (x y z : Qc) :
  Qc_leb x y = true -> Qc_leb y z = true -> Qc_leb x z = true.
Proof. rewrite !Qc_leb_le. apply Qcle_trans. Qed.

End QcOrder.

(** ** Sorting facts *)

Section SortFacts.

Variable A : Type.
Variable leb : A -> A -> bool.

Implicit Types (l : list A) (x y z d : A).

Hypothesis leb_total : forall x y, leb x y = true \/ leb y x = true.
Hypothesis leb_trans :
  forall x y z, leb x y = true -> leb y z = true -> leb x z = true.

Lemma leb_refl x : leb x x = true.
Proof. destruct (leb_total x x); assumption. Qed.

Lemma insert_perm x l : Permutation (insert leb x l) (x :: l).
Proof.
  induction l as [|y r IH]; simpl.
  - apply Permutation_refl.
  - destruct (leb x y).
    + apply Permutation_refl.
    + eapply perm_trans; [apply perm_skip, IH | apply perm_swap].
Qed.

Lemma sorted_perm l : Permutation (sorted leb l) l.
Proof.
  induction l as [|x r IH]; simpl.
  - constructor.
  - eapply perm_trans; [apply insert_perm | apply perm_skip, IH].
Qed.

Lemma sorted_length l : length (sorted leb l) = length l.
Proof. apply Permutation_length, sorted_perm. Qed.

Lemma sorted_In x l : In x (sorted leb l) <-> In x l.
Proof.
  split; apply Permutation_in;
    [apply sorted_perm | apply Permutation_sym, sorted_perm].
Qed.

Lemma insert_StronglySorted x l :
  StronglySorted (le leb) l -> StronglySorted (le leb) (insert leb x l).
Proof.
  induction 1 as [|y r Hr IH Hall]; simpl.
  - repeat constructor.
  - destruct (leb x y) eqn:E.
    + constructor; [constructor; assumption|].
      constructor; [exact E|].
      rewrite Forall_forall in *. intros z Hz.
      eapply leb_trans; [exact E | apply Hall, Hz].
    + constructor; [exact IH|].
      rewrite Forall_forall in *. intros z Hz.
      apply (Permutation_in _ (insert_perm x r)) in Hz.
      destruct Hz as [<-|Hz]; [|apply Hall, Hz].
      destruct (leb_total x y) as [H|H]; [congruence | exact H].
Qed.

Lemma sorted_StronglySorted l : StronglySorted (le leb) (sorted leb l).
Proof.
  induction l as [|x r IH]; simpl.
  - constructor.
  - apply insert_StronglySorted, IH.
Qed.

Lemma StronglySorted_nth d l :
  StronglySorted (le leb) l ->
  forall i j, (i <= j)%nat -> (j < length l)%nat ->
  le leb (nth i l d) (nth j l d).
Proof.
  induction 1 as [|x r Hr IH Hall]; simpl; intros i j Hij Hj; [lia|].
  destruct i as [|i], j as [|j]; try lia.
  - apply leb_refl.
  - rewrite Forall_forall in Hall. apply Hall, nth_In. lia.
  - apply IH; lia.
Qed.

Lemma last_item_nonempty l :
  l <> [] -> exists x, last_item l = Ok x /\ In x l.
Proof.
  induction l as [|y r IH]; [congruence|]. intros _.
  destruct r as [|z r'].
  - exists y. simpl. auto.
  - destruct IH as [x [Hx Hin]]; [discriminate|].
    exists x. split; [exact Hx | right; exact Hin].
Qed.

Lemma last_item_upper l x :
  StronglySorted (le leb) l -> last_item l = Ok x ->
  forall y, In y l -> le leb y x.
Proof.
  induction 1 as [|z r Hr IH Hall]; [discriminate|].
  intros Hlast y Hy. destruct r as [|z' r'].
  - simpl in Hlast. injection Hlast as <-.
    destruct Hy as [<-|[]]. apply leb_refl.
  - change (last_item (z' :: r') = Ok x) in Hlast.
    destruct Hy as [<-|Hy]; [|apply IH; assumption].
    rewrite Forall_forall in Hall. apply Hall.
    destruct (last_item_nonempty (l:=z' :: r')) as [x' [Hx' Hin]];
      [discriminate|].
    rewrite Hlast in Hx'. injection Hx' as <-. exact Hin.
Qed.

End SortFacts.

(** ** How the chart functions and [main] run *)

Section RunFacts.

Import GenerateCharts Outcome.

Lemma plot_buffer_sizes_appends d log :
  plot_buffer_sizes d log =
  (log ++ fst (run (plot_buffer_sizes d)), snd (run (plot_buffer_sizes d))).
Proof.
  unfold plot_buffer_sizes, run, bind, emit, lift.
  destruct (buffer_sizes_csv d) as [df|]; simpl.
  - destruct (Pandas.idxmax _) as [i|e]; simpl; [|reflexivity].
    destruct (Pandas.loc (map Sweep.buffer_size df) i) as [k|e]; simpl;
      [|reflexivity].
    destruct (Pandas.loc (map Sweep.throughput_ops_per_sec df) i) as [v|e];
      simpl; [|reflexivity].
    rewrite <- !app_assoc. reflexivity.
  - rewrite <- !app_assoc. reflexivity.
Qed.

Lemma plot_sustained_timeseries_appends d log :
  plot_sustained_timeseries d log =
  (log ++ fst (run (plot_sustained_timeseries d)),
   snd (run (plot_sustained_timeseries d))).
Proof.
  unfold plot_sustained_timeseries, run, bind, emit, lift.
  destruct (sustained_timeseries_csv d) as [df|]; simpl.
  - destruct (length _ =? 0)%nat; simpl; rewrite <- !app_assoc; reflexivity.
  - rewrite <- !app_assoc. reflexivity.
Qed.

Lemma plot_latency_distribution_appends d log :
  plot_latency_distribution d log =
  (log ++ fst (run (plot_latency_distribution d)),
   snd (run (plot_latency_distribution d))).
Proof.
  unfold plot_latency_distribution, run, bind, emit, lift.
  destruct (latency_samples_csv d) as [s|]; simpl.
  - destruct (Pandas.quantile s (Q2Qc (50 # 100))) as [a|e]; simpl;
      [|reflexivity].
    destruct (Pandas.quantile s (Q2Qc (99 # 100))) as [b|e]; simpl;
      [|reflexivity].
    destruct (Pandas.quantile s (Q2Qc (999 # 1000))) as [c|e]; simpl;
      [|reflexivity].
    rewrite <- !app_assoc. reflexivity.
  - rewrite <- !app_assoc. reflexivity.
Qed.

Lemma build_appends c d log :
  build c d log = (log ++ fst (run (build c d)), snd (run (build c d))).
Proof.
  destruct c; simpl.
  - apply plot_buffer_sizes_appends.
  - apply plot_sustained_timeseries_appends.
  - apply plot_latency_distribution_appends.
Qed.

(** A chart function enters, then prints and saves for its own chart
    only. *)
Lemma build_log c d :
  exists evs,
    fst (run (build c d)) = Call c :: evs /\
    (forall c', attempted c' evs = false) /\
    (forall c', warned c' evs = chart_eqb c' c && input_missing c d) /\
    (input_missing c d = true -> snd (run (build c d)) = Ok tt).
Proof.
  destruct c; simpl; unfold run.
  - unfold plot_buffer_sizes, bind, emit, lift.
    destruct (buffer_sizes_csv d) as [df|]; simpl.
    + destruct (Pandas.idxmax _) as [i|e]; simpl.
      2:{ exists []. repeat split; intros; try discriminate;
          simpl; now rewrite ?andb_false_r. }
      destruct (Pandas.loc (map Sweep.buffer_size df) i) as [k|e]; simpl.
      2:{ exists []. repeat split; intros; try discriminate;
          simpl; now rewrite ?andb_false_r. }
      destruct (Pandas.loc (map Sweep.throughput_ops_per_sec df) i)
        as [v|e]; simpl.
      2:{ exists []. repeat split; intros; try discriminate;
          simpl; now rewrite ?andb_false_r. }
      eexists. split; [reflexivity|].
      repeat split; intros; try discriminate;
        simpl; now rewrite ?andb_false_r.
    + eexists. split; [reflexivity|].
      repeat split; intros; simpl;
        now rewrite ?andb_true_r, ?orb_false_r.
  - unfold plot_sustained_timeseries, bind, emit, lift.
    destruct (sustained_timeseries_csv d) as [df|]; simpl.
    + destruct (length _ =? 0)%nat; simpl;
        (eexists; split; [reflexivity|]);
        repeat split; intros; try discriminate;
        simpl; now rewrite ?andb_false_r.
    + eexists. split; [reflexivity|].
      repeat split; intros; simpl;
        now rewrite ?andb_true_r, ?orb_false_r.
  - unfold plot_latency_distribution, bind, emit, lift.
    destruct (latency_samples_csv d) as [s|]; simpl.
    + destruct (Pandas.quantile s (Q2Qc (50 # 100))) as [a|e]; simpl.
      2:{ exists []. repeat split; intros; try discriminate;
          simpl; now rewrite ?andb_false_r. }
      destruct (Pandas.quantile s (Q2Qc (99 # 100))) as [b|e]; simpl.
      2:{ exists []. repeat split; intros; try discriminate;
          simpl; now rewrite ?andb_false_r. }
      destruct (Pandas.quantile s (Q2Qc (999 # 1000))) as [c|e]; simpl.
      2:{ exists []. repeat split; intros; try discriminate;
          simpl; now rewrite ?andb_false_r. }
      eexists. split; [reflexivity|].
      repeat split; intros; try discriminate;
        simpl; now rewrite ?andb_false_r.
    + eexists. split; [reflexivity|].
      repeat split; intros; simpl;
        now rewrite ?andb_true_r, ?orb_false_r.
Qed.

Lemma located_glob fs :
  located fs = true <-> glob_results fs <> [].
Proof.
  unfold located. destruct (glob_results fs); split;
    congruence || discriminate.
Qed.

Lemma main_not_located fs :
  located fs = false ->
  run (main fs) = ([PrintNoResultsDirs], Raise (SystemExit 1)).
Proof.
  unfold located, main, run. destruct (glob_results fs); [|discriminate].
  reflexivity.
Qed.

(** The directory chosen by [sorted(results_dirs)[-1]] is one of the
    matches and no match is above it. *)
Lemma latest_dir_spec fs :
  located fs = true ->
  exists latest,
    latest_dir fs = Ok latest /\
    In latest (glob_results fs) /\
    (forall d, In d (glob_results fs) -> (d <=? latest)%string = true).
Proof.
  intros Hloc. apply located_glob in Hloc. unfold latest_dir.
  destruct (last_item_nonempty (l:=sorted String.leb (glob_results fs)))
    as [x [Hx Hin]].
  { intro E. apply Hloc. apply Permutation_nil.
    rewrite <- E. apply sorted_perm. }
  exists x. split; [exact Hx|]. split.
  - apply (sorted_In String.leb), Hin.
  - intros d Hd.
    apply (last_item_upper String.leb_total)
      with (l := sorted String.leb (glob_results fs)); auto.
    + apply sorted_StronglySorted;
        [apply String.leb_total | apply string_leb_trans].
    + apply sorted_In, Hd.
Qed.

Lemma main_located fs latest :
  located fs = true -> latest_dir fs = Ok latest ->
  run (main fs) =
  (build BufferSizes (results_in fs latest) ;;
   build SustainedTimeseries (results_in fs latest) ;;
   build LatencyDistribution (results_in fs latest) ;;
   emit (PrintComplete latest)) [PrintUsing latest].
Proof.
  unfold located, latest_dir, main, run. intros Hloc Hlast.
  destruct (glob_results fs) as [|g gs]; [discriminate|].
  unfold bind at 1. unfold ret at 1.
  unfold bind at 1. unfold lift at 1. rewrite Hlast.
  reflexivity.
Qed.

(** The run after the directory is chosen: charts in order, stopping at
    the first one that raises. *)
Lemma main_trace fs latest :
  located fs = true -> latest_dir fs = Ok latest ->
  let d := results_in fs latest in
  let E c := fst (run (build c d)) in
  run (main fs) =
  match snd (run (build BufferSizes d)) with
  | Raise e => (PrintUsing latest :: E BufferSizes, Raise e)
  | Ok _ =>
      match snd (run (build SustainedTimeseries d)) with
      | Raise e =>
          (PrintUsing latest :: E BufferSizes ++ E SustainedTimeseries,
           Raise e)
      | Ok _ =>
          match snd (run (build LatencyDistribution d)) with
          | Raise e =>
              (PrintUsing latest :: E BufferSizes ++ E SustainedTimeseries
                 ++ E LatencyDistribution, Raise e)
          | Ok _ =>
              (PrintUsing latest :: E BufferSizes ++ E SustainedTimeseries
                 ++ E LatencyDistribution ++ [PrintComplete latest], Ok tt)
          end
      end
  end.
Proof.
  intros Hloc Hlast d E. rewrite (main_located fs Hloc Hlast).
  fold d. unfold bind.
  rewrite (build_appends BufferSizes d).
  destruct (snd (run (build BufferSizes d))); [|reflexivity].
  rewrite (build_appends SustainedTimeseries d).
  destruct (snd (run (build SustainedTimeseries d)));
    [|simpl; rewrite <- ?app_assoc; reflexivity].
  rewrite (build_appends LatencyDistribution d).
  destruct (snd (run (build LatencyDistribution d)));
    unfold emit; simpl; rewrite <- ?app_assoc; reflexivity.
Qed.

Lemma attempted_app c l1 l2 :
  attempted c (l1 ++ l2) = attempted c l1 || attempted c l2.
Proof. apply existsb_app. Qed.

Lemma warned_app c l1 l2 :
  warned c (l1 ++ l2) = warned c l1 || warned c l2.
Proof. apply existsb_app. Qed.

Lemma attempted_using c latest l :
  attempted c (PrintUsing latest :: l) = attempted c l.
Proof. reflexivity. Qed.

Lemma warned_using c latest l :
  warned c (PrintUsing latest :: l) = warned c l.
Proof. reflexivity. Qed.

Lemma chart_eqb_refl c : chart_eqb c c = true.
Proof. destruct c; reflexivity. Qed.

Lemma attempted_build c c' d :
  attempted c' (fst (run (build c d))) = chart_eqb c' c.
Proof.
  destruct (build_log c d) as [evs [-> [Hatt _]]].
  simpl. rewrite Hatt. apply orb_false_r.
Qed.

Lemma warned_build c c' d :
  warned c' (fst (run (build c d))) = chart_eqb c' c && input_missing c d.
Proof.
  destruct (build_log c d) as [evs [-> [_ [Hw _]]]].
  simpl. apply Hw.
Qed.

(** A chart function raises nothing but the two pandas errors. *)
Lemma build_raises_kind c d e :
  raises (build c d) = Some e -> e = ValueError \/ e = KeyError.
Proof.
  unfold raises, run. destruct c; simpl.
  - unfold plot_buffer_sizes, bind, emit, lift.
    destruct (buffer_sizes_csv d) as [df|]; simpl; [|discriminate].
    unfold Pandas.idxmax, Pandas.loc.
    destruct (map Sweep.throughput_ops_per_sec df) as [|x r]; simpl.
    { intros [= <-]. auto. }
    destruct (nth_error (map Sweep.buffer_size df) _); simpl.
    2:{ intros [= <-]. auto. }
    destruct (nth_error (x :: r) _); simpl.
    2:{ intros [= <-]. auto. }
    discriminate.
  - unfold plot_sustained_timeseries, bind, emit, lift.
    destruct (sustained_timeseries_csv d) as [df|]; simpl; [|discriminate].
    destruct (length _ =? 0)%nat; simpl; discriminate.
  - unfold plot_latency_distribution, bind, emit, lift.
    destruct (latency_samples_csv d) as [s|]; simpl; [|discriminate].
    assert (Q : forall q r,
               Pandas.quantile s q = Raise r -> r = ValueError).
    { intros q r. unfold Pandas.quantile.
      destruct (Qc_leb 0 q && Qc_leb q 1); [|congruence].
      destruct s; [discriminate|].
      destruct (Qc_leb _ _); discriminate. }
    destruct (Pandas.quantile s (Q2Qc (50 # 100))) as [a|r] eqn:E1; simpl.
    2:{ intros [= <-]. left. eapply Q, E1. }
    destruct (Pandas.quantile s (Q2Qc (99 # 100))) as [b|r] eqn:E2; simpl.
    2:{ intros [= <-]. left. eapply Q, E2. }
    destruct (Pandas.quantile s (Q2Qc (999 # 1000))) as [c|r] eqn:E3; simpl.
    2:{ intros [= <-]. left. eapply Q, E3. }
    discriminate.
Qed.

Lemma rendered_app c l1 l2 :
  rendered c (l1 ++ l2) = rendered c l1 || rendered c l2.
Proof. apply existsb_app. Qed.

Lemma rendered_using c latest l :
  rendered c (PrintUsing latest :: l) = rendered c l.
Proof. reflexivity. Qed.

(** A figure is saved by its own chart function only, and never when the
    input is missing. *)
Lemma rendered_build c c' d :
  rendered c' (fst (run (build c d))) = true ->
  c' = c /\ input_missing c d = false.
Proof.
  assert (same : forall a b, chart_eqb a b = true -> a = b)
    by (intros [] []; simpl; congruence).
  destruct c; simpl; unfold run.
  - unfold plot_buffer_sizes, bind, emit, lift.
    destruct (buffer_sizes_csv d) as [df|]; simpl; [|discriminate].
    destruct (Pandas.idxmax _) as [i|e]; simpl; [|discriminate].
    destruct (Pandas.loc (map Sweep.buffer_size df) i) as [k|e]; simpl;
      [|discriminate].
    destruct (Pandas.loc (map Sweep.throughput_ops_per_sec df) i)
      as [v|e]; simpl; [|discriminate].
    rewrite !orb_false_r. auto.
  - unfold plot_sustained_timeseries, bind, emit, lift.
    destruct (sustained_timeseries_csv d) as [df|]; simpl; [|discriminate].
    destruct (length _ =? 0)%nat; simpl; [discriminate|].
    rewrite !orb_false_r. auto.
  - unfold plot_latency_distribution, bind, emit, lift.
    destruct (latency_samples_csv d) as [s|]; simpl; [|discriminate].
    destruct (Pandas.quantile s (Q2Qc (50 # 100))) as [a|e]; simpl;
      [|discriminate].
    destruct (Pandas.quantile s (Q2Qc (99 # 100))) as [b|e]; simpl;
      [|discriminate].
    destruct (Pandas.quantile s (Q2Qc (999 # 1000))) as [c|e]; simpl;
      [|discriminate].
    rewrite !orb_false_r. auto.
Qed.

(** With a missing input the chart function prints its warning and
    returns. *)
Lemma build_missing c d :
  input_missing c d = true ->
  run (build c d) = ([Call c; PrintSkipping c], Ok tt).
Proof.
  destruct c; simpl; unfold run;
    [unfold plot_buffer_sizes; destruct (buffer_sizes_csv d)
    |unfold plot_sustained_timeseries;
     destruct (sustained_timeseries_csv d)
    |unfold plot_latency_distribution; destruct (latency_samples_csv d)];
    intros H; try discriminate H; reflexivity.
Qed.

End RunFacts.

(** ** The result-set locator *)

Section Locator.

Import GenerateCharts Outcome.

Local Open Scope string_scope.

Lemma glob_results_spec (fs : FileSystem) (e : string) :
  In e (glob_results fs) <->
  In e (cwd_entries fs) /\ String.prefix "benchmark_results_" e = true.
Proof. unfold glob_results. apply filter_In. Qed.

Lemma located_existsb (fs : FileSystem) :
  located fs = existsb (String.prefix "benchmark_results_") (cwd_entries fs).
Proof.
  unfold located, glob_results.
  induction (cwd_entries fs) as [|e l IH]; simpl; [reflexivity|].
  destruct (String.prefix "benchmark_results_" e); [reflexivity | exact IH].
Qed.

(** C7, as the code has it.  The locator looks at the entries of the
    working directory whose name starts with [benchmark_results_].  When
    there is one, the directory [main] uses is such an entry, no such entry
    is above it in lexicographic order, it is the only one with that
    property, and the three chart functions run on it: among
    [benchmark_results_2024-01-01], [benchmark_results_2024-03-05] and
    [benchmark_results_2024-02-10] (and a file of another name) that is
    [benchmark_results_2024-03-05].  When there is none, [main] prints its
    message and leaves with [sys.exit(1)] before any chart function is
    entered. *)
Theorem locator_selects_last_match (fs : FileSystem) :
  (if existsb (String.prefix "benchmark_results_") (cwd_entries fs)
   then
     exists latest,
       In latest (cwd_entries fs) /\
       String.prefix "benchmark_results_" latest = true /\
       (forall e, In e (cwd_entries fs) ->
                  String.prefix "benchmark_results_" e = true ->
                  (e <=? latest) = true) /\
       (forall e, In e (cwd_entries fs) ->
                  String.prefix "benchmark_results_" e = true ->
                  (forall e', In e' (cwd_entries fs) ->
                              String.prefix "benchmark_results_" e' = true ->
                              (e' <=? e) = true) ->
                  e = latest) /\
       run (main fs) =
       (plot_buffer_sizes (results_in fs latest) ;;
        plot_sustained_timeseries (results_in fs latest) ;;
        plot_latency_distribution (results_in fs latest) ;;
        emit (PrintComplete latest)) [PrintUsing latest]
   else
     run (main fs) = ([PrintNoResultsDirs], Raise (SystemExit 1)) /\
     exit_status (snd (run (main fs))) = 1%Z /\
     (forall c, attempted c (fst (run (main fs))) = false)) /\
  hd_error (fst (run (main Examples.fs_three_runs)))
  = Some (PrintUsing "benchmark_results_2024-03-05").
Proof.
  split; [|vm_compute; reflexivity].
  rewrite <- located_existsb.
  destruct (located fs) eqn:L.
  - destruct (latest_dir_spec fs L) as [latest [Hl [Hin Hub]]].
    apply glob_results_spec in Hin. destruct Hin as [Hentry Hpre].
    exists latest. split; [exact Hentry|]. split; [exact Hpre|].
    assert (U : forall e, In e (cwd_entries fs) ->
                          String.prefix "benchmark_results_" e = true ->
                          (e <=? latest) = true).
    { intros e He Hp. apply Hub, glob_results_spec. auto. }
    split; [exact U|]. split.
    + intros e He Hp Hmax. apply String.leb_antisym.
      * apply U; assumption.
      * apply Hmax; assumption.
    + apply (main_located fs L Hl).
  - rewrite (main_not_located fs L). simpl. repeat split.
Qed.

(** C7, as stated, fails on its own example: the names [run_2024-01-01],
    [run_2024-03-05], [run_2024-02-10] do not start with
    [benchmark_results_], so the locator selects none of them; the run
    prints its message and leaves with status 1. *)
Lemma locator_ignores_run_names :
  cwd_entries Examples.fs_run_names
  = ["run_2024-01-01"; "run_2024-03-05"; "run_2024-02-10"] /\
  glob_results Examples.fs_run_names = [] /\
  run (main Examples.fs_run_names)
  = ([PrintNoResultsDirs], Raise (SystemExit 1)) /\
  exit_status (snd (run (main Examples.fs_run_names))) = 1%Z /\
  ~ In (PrintUsing "run_2024-03-05") (fst (run (main Examples.fs_run_names))).
Proof.
  repeat split. simpl. intros [H|[]]. discriminate H.
Qed.

Example locator_three_runs :
  latest_dir Examples.fs_three_runs = Ok "benchmark_results_2024-03-05".
Proof. reflexivity. Qed.

Example locator_no_runs :
  run (main Examples.fs_no_runs)
  = ([PrintNoResultsDirs], Raise (SystemExit 1)).
Proof. reflexivity. Qed.

End Locator.

(** ** Failures and skips inside a run *)

Section Isolation.

Import GenerateCharts Outcome.

Local Open Scope nat_scope.
Local Open Scope string_scope.

Lemma position_cases c :
  position c = 0 \/ position c = 1 \/ position c = 2.
Proof. destruct c; simpl; auto. Qed.

Lemma raises_snd {A} (m : M A) e :
  raises m = Some e <-> snd (run m) = Raise e.
Proof.
  unfold raises. destruct (snd (run m)); split; congruence.
Qed.

Lemma raises_none (m : M unit) :
  raises m = None <-> snd (run m) = Ok tt.
Proof.
  unfold raises. destruct (snd (run m)) as [[]|]; split; congruence.
Qed.

(** C1, as the code has it.  [main] has no handler around the chart
    functions.  When the locator succeeded and a chart function raises, the
    first chart function that raises ends [main] with its exception: that
    chart was entered, the charts after it are not entered, and the process
    leaves with a traceback (status 1). *)
Theorem chart_failure_ends_run (fs : FileSystem) latest c e :
  located fs = true ->
  latest_dir fs = Ok latest ->
  raises (build c (results_in fs latest)) = Some e ->
  exists c0 e0,
    position c0 <= position c /\
    raises (build c0 (results_in fs latest)) = Some e0 /\
    (forall c', position c' < position c0 ->
                raises (build c' (results_in fs latest)) = None) /\
    snd (run (main fs)) = Raise e0 /\
    exit_status (snd (run (main fs))) = 1%Z /\
    attempted c0 (fst (run (main fs))) = true /\
    (forall c', position c0 < position c' ->
                attempted c' (fst (run (main fs))) = false).
Proof.
  intros Hloc Hlast Hc.
  pose proof (main_trace fs Hloc Hlast) as T. cbv zeta in T.
  set (d := results_in fs latest) in *.
  assert (K : forall c1 e1, raises (build c1 d) = Some e1 ->
                            exit_status (@Raise unit e1) = 1%Z).
  { intros c1 e1 H. destruct (build_raises_kind _ _ H) as [->| ->];
      reflexivity. }
  assert (first_raiser :
    forall c0 e0, raises (build c0 d) = Some e0 ->
      (forall c', position c' < position c0 -> raises (build c' d) = None) ->
      snd (run (main fs)) = Raise e0 /\
      attempted c0 (fst (run (main fs))) = true /\
      (forall c', position c0 < position c' ->
                  attempted c' (fst (run (main fs))) = false)).
  { intros c0 e0 H0 Hbefore. rewrite T.
    assert (B : forall c', position c' < position c0 ->
                           snd (run (build c' d)) = Ok tt).
    { intros c' Hlt. apply raises_none, Hbefore, Hlt. }
    apply raises_snd in H0.
    destruct c0; simpl in B.
    - rewrite H0. cbn [fst snd].
      rewrite attempted_using, attempted_build. split; [reflexivity|].
      split; [reflexivity|]. intros [] Hpos; simpl in Hpos; try lia;
        rewrite attempted_using, attempted_build; reflexivity.
    - rewrite (B BufferSizes), H0 by (simpl; lia). cbn [fst snd].
      rewrite attempted_using, attempted_app, !attempted_build.
      split; [reflexivity|].
      split; [reflexivity|]. intros [] Hpos; simpl in Hpos; try lia.
      rewrite attempted_using, attempted_app, !attempted_build.
      reflexivity.
    - rewrite (B BufferSizes), (B SustainedTimeseries), H0
        by (simpl; lia). cbn [fst snd].
      rewrite attempted_using, !attempted_app, !attempted_build.
      split; [reflexivity|].
      split; [reflexivity|]. intros [] Hpos; simpl in Hpos; lia. }
  (* the first chart, in calling order, that raises *)
  destruct (raises (build BufferSizes d)) as [e1|] eqn:R1.
  { exists BufferSizes, e1. split; [simpl; lia|]. split; [exact R1|].
    split; [intros c' Hlt; simpl in Hlt; lia|].
    destruct (first_raiser BufferSizes e1 R1) as [H1 [H2 H3]].
    { intros c' Hlt. simpl in Hlt. lia. }
    repeat split; auto. rewrite H1. eapply K, R1. }
  destruct (raises (build SustainedTimeseries d)) as [e2|] eqn:R2.
  { exists SustainedTimeseries, e2.
    assert (Hb : forall c', position c' < position SustainedTimeseries ->
                            raises (build c' d) = None).
    { intros [] Hlt; simpl in Hlt; try lia. exact R1. }
    split.
    { destruct c; simpl; try lia. congruence. }
    split; [exact R2|]. split; [exact Hb|].
    destruct (first_raiser SustainedTimeseries e2 R2 Hb) as [H1 [H2 H3]].
    repeat split; auto. rewrite H1. eapply K, R2. }
  assert (c = LatencyDistribution) by (destruct c; congruence). subst c.
  exists LatencyDistribution, e.
  assert (Hb : forall c', position c' < position LatencyDistribution ->
                          raises (build c' d) = None).
  { intros [] Hlt; simpl in Hlt; try lia; assumption. }
  split; [lia|]. split; [exact Hc|]. split; [exact Hb|].
  destruct (first_raiser LatencyDistribution e Hc Hb) as [H1 [H2 H3]].
  repeat split; auto. rewrite H1. eapply K, Hc.
Qed.

Lemma chart_failure_ends_run_witness :
  exists c0 e0,
    position c0 <= position BufferSizes /\
    raises (build c0 (results_in Examples.fs_empty_sweep
                        "benchmark_results_20240305_101500")) = Some e0 /\
    (forall c', position c' < position c0 ->
                raises (build c' (results_in Examples.fs_empty_sweep
                   "benchmark_results_20240305_101500")) = None) /\
    snd (run (main Examples.fs_empty_sweep)) = Raise e0 /\
    exit_status (snd (run (main Examples.fs_empty_sweep))) = 1%Z /\
    attempted c0 (fst (run (main Examples.fs_empty_sweep))) = true /\
    (forall c', position c0 < position c' ->
                attempted c' (fst (run (main Examples.fs_empty_sweep)))
                = false).
Proof.
  apply (@chart_failure_ends_run Examples.fs_empty_sweep
           "benchmark_results_20240305_101500" BufferSizes ValueError);
    reflexivity.
Defined.

(** C1, as stated, fails: with a sweep table that has no rows,
    [idxmax] raises [ValueError] inside [plot_buffer_sizes], the two other
    chart functions are never entered and the process leaves with
    status 1. *)
Lemma chart_failure_not_isolated :
  located Examples.fs_empty_sweep = true /\
  run (main Examples.fs_empty_sweep)
  = ([PrintUsing "benchmark_results_20240305_101500"; Call BufferSizes],
     Raise ValueError) /\
  exit_status (snd (run (main Examples.fs_empty_sweep))) = 1%Z /\
  attempted SustainedTimeseries (fst (run (main Examples.fs_empty_sweep)))
  = false /\
  attempted LatencyDistribution (fst (run (main Examples.fs_empty_sweep)))
  = false /\
  ~ chart_failures_isolated Examples.fs_empty_sweep.
Proof.
  repeat split; try reflexivity.
  intro H.
  destruct (H eq_refl "benchmark_results_20240305_101500" BufferSizes
              ValueError eq_refl eq_refl) as [_ H2].
  discriminate H2.
Qed.

End Isolation.

Section MissingInput.

Import GenerateCharts Outcome.

Local Open Scope nat_scope.
Local Open Scope string_scope.

Ltac observe :=
  cbn [fst snd];
  rewrite ?attempted_using, ?warned_using, ?rendered_using,
    ?attempted_app, ?warned_app, ?rendered_app,
    ?attempted_build, ?warned_build.

(** C8, as the code has it.  A chart function whose input file is missing
    prints its warning, saves nothing and returns.  In a run of [main]
    whose locator succeeded, if no chart function called before it raises,
    the chart is entered, its warning is printed and the next chart
    function is entered; it never saves a figure.  If no chart function
    raises at all, the three charts are entered and the process leaves
    with status 0. *)
Theorem missing_input_skips_chart (fs : FileSystem) latest c :
  located fs = true ->
  latest_dir fs = Ok latest ->
  input_missing c (results_in fs latest) = true ->
  run (build c (results_in fs latest)) = ([Call c; PrintSkipping c], Ok tt)
  /\ rendered c (fst (run (main fs))) = false
  /\ ((forall c', position c' < position c ->
                  raises (build c' (results_in fs latest)) = None) ->
      attempted c (fst (run (main fs))) = true /\
      warned c (fst (run (main fs))) = true /\
      (forall c', position c' = S (position c) ->
                  attempted c' (fst (run (main fs))) = true))
  /\ ((forall c', raises (build c' (results_in fs latest)) = None) ->
      (forall c', attempted c' (fst (run (main fs))) = true) /\
      snd (run (main fs)) = Ok tt /\
      exit_status (snd (run (main fs))) = 0%Z).
Proof.
  intros Hloc Hlast Hmiss.
  pose proof (main_trace fs Hloc Hlast) as T. cbv zeta in T.
  set (d := results_in fs latest) in *.
  pose proof (build_missing c d Hmiss) as Hc.
  assert (NR : forall c', rendered c (fst (run (build c' d))) = false).
  { intros c'. destruct (rendered c (fst (run (build c' d)))) eqn:E;
      [|reflexivity].
    apply rendered_build in E. destruct E as [-> E]. congruence. }
  split; [exact Hc|]. split; [|split].
  - rewrite T.
    destruct (snd (run (build BufferSizes d)));
      [destruct (snd (run (build SustainedTimeseries d)));
       [destruct (snd (run (build LatencyDistribution d)))|]|];
      observe; rewrite ?NR; reflexivity.
  - intros Hbefore.
    assert (B : forall c', position c' < position c ->
                           snd (run (build c' d)) = Ok tt).
    { intros c' Hlt. apply raises_none, Hbefore, Hlt. }
    assert (R : snd (run (build c d)) = Ok tt) by (rewrite Hc; reflexivity).
    rewrite T. destruct c; simpl in B.
    + rewrite R.
      destruct (snd (run (build SustainedTimeseries d)));
        [destruct (snd (run (build LatencyDistribution d)))|];
        observe; rewrite Hmiss; (split; [reflexivity|]);
        (split; [reflexivity|]);
        intros [] Hp; simpl in Hp; try lia; observe;
        simpl; rewrite ?orb_true_r; reflexivity.
    + rewrite (B BufferSizes), R by (simpl; lia).
      destruct (snd (run (build LatencyDistribution d)));
        observe; rewrite Hmiss; (split; [reflexivity|]);
        (split; [reflexivity|]);
        intros [] Hp; simpl in Hp; try lia; observe;
        simpl; rewrite ?orb_true_r; reflexivity.
    + rewrite (B BufferSizes), (B SustainedTimeseries), R by (simpl; lia).
      observe; rewrite Hmiss. split; [reflexivity|].
      split; [reflexivity|].
      intros [] Hp; simpl in Hp; lia.
  - intros Hnone. rewrite T.
    rewrite !(proj1 (raises_none _) (Hnone _)).
    split; [|split; reflexivity].
    intros []; observe; simpl; rewrite ?orb_true_r; reflexivity.
Qed.

Lemma missing_input_skips_chart_witness :
  run (build SustainedTimeseries
         (results_in Examples.fs_sweep_only
            "benchmark_results_20240305_101500"))
  = ([Call SustainedTimeseries; PrintSkipping SustainedTimeseries], Ok tt)
  /\ rendered SustainedTimeseries
       (fst (run (main Examples.fs_sweep_only))) = false
  /\ ((forall c', position c' < position SustainedTimeseries ->
         raises (build c' (results_in Examples.fs_sweep_only
                             "benchmark_results_20240305_101500")) = None) ->
      attempted SustainedTimeseries
        (fst (run (main Examples.fs_sweep_only))) = true /\
      warned SustainedTimeseries
        (fst (run (main Examples.fs_sweep_only))) = true /\
      (forall c', position c' = S (position SustainedTimeseries) ->
         attempted c' (fst (run (main Examples.fs_sweep_only))) = true))
  /\ ((forall c', raises (build c' (results_in Examples.fs_sweep_only
                             "benchmark_results_20240305_101500")) = None) ->
      (forall c', attempted c'
                    (fst (run (main Examples.fs_sweep_only))) = true) /\
      snd (run (main Examples.fs_sweep_only)) = Ok tt /\
      exit_status (snd (run (main Examples.fs_sweep_only))) = 0%Z).
Proof.
  apply (@missing_input_skips_chart Examples.fs_sweep_only
           "benchmark_results_20240305_101500" SustainedTimeseries);
    reflexivity.
Defined.

(** The run on [fs_sweep_only]: one chart is drawn, two are skipped, the
    status is 0. *)
Example sweep_only_run :
  (forall c', raises (build c' Examples.dir_sweep_only) = None) /\
  exit_status (snd (run (main Examples.fs_sweep_only))) = 0%Z /\
  rendered BufferSizes (fst (run (main Examples.fs_sweep_only))) = true /\
  warned SustainedTimeseries (fst (run (main Examples.fs_sweep_only)))
  = true /\
  warned LatencyDistribution (fst (run (main Examples.fs_sweep_only)))
  = true.
Proof.
  split; [intros []; vm_compute; reflexivity|].
  repeat split; vm_compute; reflexivity.
Qed.

(** C8, as stated, fails: the latency file is missing, the locator
    succeeded, yet the sweep table has no rows, [plot_buffer_sizes] raises,
    the latency chart is never entered, no warning is printed for it and
    the process leaves with status 1. *)
Lemma missing_input_run_can_fail :
  located Examples.fs_empty_sweep_no_latency = true /\
  input_missing LatencyDistribution Examples.dir_empty_sweep_no_latency
  = true /\
  run (main Examples.fs_empty_sweep_no_latency)
  = ([PrintUsing "benchmark_results_20240305_101500"; Call BufferSizes],
     Raise ValueError) /\
  exit_status (snd (run (main Examples.fs_empty_sweep_no_latency))) = 1%Z /\
  ~ missing_input_only_skips Examples.fs_empty_sweep_no_latency.
Proof.
  repeat split; try reflexivity.
  intro H.
  destruct (H eq_refl "benchmark_results_20240305_101500"
              LatencyDistribution eq_refl eq_refl) as [H1 _].
  discriminate H1.
Qed.

End MissingInput.

(** ** Rational helpers *)

Section QcFacts.

Local Open Scope Qc_scope.

Lemma sum_app (a b : list Qc) :
  Pandas.sum (a ++ b) = Pandas.sum a + Pandas.sum b.
Proof.
  unfold Pandas.sum. induction a as [|x a IH]; simpl.
  - now rewrite Qcplus_0_l.
  - rewrite IH. ring.
Qed.

Lemma sum_rev (a : list Qc) : Pandas.sum (rev a) = Pandas.sum a.
Proof.
  induction a as [|x a IH]; simpl; [reflexivity|].
  rewrite sum_app, IH. unfold Pandas.sum. simpl. ring.
Qed.

Lemma mean_rev (a : list Qc) : Pandas.mean (rev a) = Pandas.mean a.
Proof.
  unfold Pandas.mean.
  destruct a as [|x a]; [reflexivity|].
  destruct (rev (x :: a)) as [|y r] eqn:E.
  - apply (f_equal (@length Qc)) in E. rewrite length_rev in E.
    discriminate.
  - rewrite <- E, sum_rev, length_rev. reflexivity.
Qed.

Lemma mean_single (x : Qc) : Pandas.mean [x] = Fin x.
Proof.
  unfold Pandas.mean, Pandas.sum. simpl. f_equal.
  replace (Pandas.Qc_of_nat 1) with 1 by (apply Qc_is_canon; reflexivity).
  field. discriminate.
Qed.

End QcFacts.

(** ** The rolling average *)

Section Rolling.

Import GenerateCharts.

Local Open Scope nat_scope.

Lemma rolling_mean_from_length w seen s :
  length (Pandas.rolling_mean_from w seen s) = length s.
Proof.
  revert seen. induction s as [|x r IH]; intros seen; simpl.
  - reflexivity.
  - now rewrite IH.
Qed.

(** Position [i] of the scan sees the values met so far, most recent
    first. *)
Lemma rolling_mean_from_nth w s :
  forall seen i,
    i < length s ->
    nth i (Pandas.rolling_mean_from w seen s) NaN =
    if length seen + S i <? w then NaN
    else Pandas.mean (firstn w (rev (firstn (S i) s) ++ seen)).
Proof.
  induction s as [|x r IH]; intros seen i Hi; simpl in Hi; [lia|].
  destruct i as [|i].
  - simpl. replace (length seen + 1) with (S (length seen)) by lia.
    reflexivity.
  - change (nth (S i) (Pandas.rolling_mean_from w seen (x :: r)) NaN)
      with (nth i (Pandas.rolling_mean_from w (x :: seen) r) NaN).
    rewrite IH by lia.
    replace (length (x :: seen) + S i) with (length seen + S (S i))
      by (simpl; lia).
    destruct (length seen + S (S i) <? w); [reflexivity|].
    change (firstn (S (S i)) (x :: r)) with (x :: firstn (S i) r).
    simpl rev. rewrite <- app_assoc. reflexivity.
Qed.

Lemma rolling_mean_nth w s i :
  i < length s ->
  nth i (Pandas.rolling_mean w s) NaN =
  if S i <? w then NaN else Pandas.mean (Stated.trailing w i s).
Proof.
  intros Hi. unfold Pandas.rolling_mean.
  rewrite rolling_mean_from_nth by exact Hi.
  simpl length. rewrite Nat.add_0_l, app_nil_r.
  destruct (S i <? w) eqn:E; [reflexivity|].
  apply Nat.ltb_ge in E.
  rewrite firstn_rev, mean_rev, length_firstn.
  replace (Nat.min (S i) (length s)) with (S i) by lia.
  unfold Stated.trailing.
  rewrite firstn_skipn_comm.
  replace (S i - w + w) with (S i) by lia.
  reflexivity.
Qed.

Lemma trailing_length w i s :
  w <= S i -> i < length s -> length (Stated.trailing w i s) = w.
Proof.
  intros Hw Hi. unfold Stated.trailing.
  rewrite length_firstn, length_skipn. lia.
Qed.

Lemma trailing_nth w i s j d :
  w <= S i -> j < w ->
  nth j (Stated.trailing w i s) d = nth (S i - w + j) s d.
Proof.
  intros Hw Hj. unfold Stated.trailing.
  rewrite nth_firstn.
  destruct (j <? w) eqn:E; [|apply Nat.ltb_ge in E; lia].
  apply nth_skipn.
Qed.

Lemma mean_nonempty (l : list Qc) :
  l <> [] ->
  Pandas.mean l = Fin (Pandas.sum l / Pandas.Qc_of_nat (length l))%Qc.
Proof. destruct l; [congruence | reflexivity]. Qed.

Lemma derived_window_small n : n < 100 -> derived_window n = 1.
Proof.
  intros H. unfold derived_window.
  assert (n / 50 < 2) by (apply Nat.Div0.div_lt_upper_bound; lia). lia.
Qed.

Lemma derived_window_large n : 100 <= n -> 2 <= derived_window n.
Proof.
  intros H. unfold derived_window.
  assert (2 <= n / 50) by (apply Nat.div_le_lower_bound; lia). lia.
Qed.

Lemma derived_window_pos n : 1 <= derived_window n.
Proof. unfold derived_window. lia. Qed.

Lemma rolling_mean_from_one seen s :
  Pandas.rolling_mean_from 1 seen s = map Fin s.
Proof.
  revert seen. induction s as [|x r IH]; intros seen; simpl.
  - reflexivity.
  - rewrite IH. f_equal. apply mean_single.
Qed.

Lemma fdiv_million (v : Qc) :
  fdiv (Fin v) (Fin million) = Fin (v / million)%Qc.
Proof. reflexivity. Qed.

Lemma combine_map_r {A B C} (h : B -> C) (xs : list A) (ys : list B) :
  combine xs (map h ys) = map (fun p => (fst p, h (snd p))) (combine xs ys).
Proof.
  revert ys. induction xs as [|x xs IH]; intros [|y ys]; simpl;
    try reflexivity.
  now rewrite IH.
Qed.

(** The run of [plot_sustained_timeseries] on a table that has rows of the
    target test. *)
Lemma plot_sustained_timeseries_run d df :
  sustained_timeseries_csv d = Some df ->
  let df_10s :=
    filter (fun r => String.eqb (Sustained.test_name r) target_test) df in
  df_10s <> [] ->
  exists fig,
    run (plot_sustained_timeseries d)
    = ([Call SustainedTimeseries;
        Savefig SustainedTimeseries (FigSustained fig);
        PrintGenerated SustainedTimeseries], Ok tt) /\
    let throughput := map Sustained.throughput_ops_per_sec df_10s in
    let elapsed := map Sustained.elapsed_time_sec df_10s in
    raw_line fig
    = combine elapsed (map (fun v => (v / million)%Qc) throughput) /\
    window_size fig = derived_window (length df_10s) /\
    rolling_line fig
    = combine elapsed
        (map (fun v => fdiv v (Fin million))
           (Pandas.rolling_mean (derived_window (length df_10s))
              throughput)) /\
    avg_throughput fig = fdiv (Pandas.mean throughput) (Fin million) /\
    min_throughput fig = fdiv (Pandas.min throughput) (Fin million) /\
    max_throughput fig = fdiv (Pandas.max throughput) (Fin million) /\
    variance fig
    = fmul (fdiv (fsub (max_throughput fig) (min_throughput fig))
              (avg_throughput fig))
        (Fin (Q2Qc (100 # 1))).
Proof.
  intros Hfile df_10s Hne.
  unfold plot_sustained_timeseries, run, bind, emit. rewrite Hfile.
  fold df_10s.
  destruct (length df_10s =? 0) eqn:E.
  { apply Nat.eqb_eq in E. destruct df_10s; [congruence|discriminate]. }
  eexists. split; [reflexivity|]. simpl. repeat split.
Qed.

(** C9.  The series that [rolling(window).mean()] returns has the length
    of its input, for every window size (in particular every size of at
    least 1); positions without a full window hold [NaN] and are
    counted. *)
Theorem rolling_mean_length (w : nat) (s : Pandas.Series) :
  length (Pandas.rolling_mean w s) = length s.
Proof. apply rolling_mean_from_length. Qed.

(** C2, as the code has it.  With the window size the script derives,
    position [i] of the rolling average is the arithmetic mean of the
    [w] values ending at [i] when [w] values are available there, and is
    missing ([NaN]) when fewer are: pandas does not average over a shorter
    window.  The first output equals the first input when the series has
    fewer than 100 values (window 1) and is missing otherwise. *)
Theorem rolling_mean_full_windows_only (s : Pandas.Series) (i : nat) :
  i < length s ->
  let w := derived_window (length s) in
  1 <= w /\
  nth i (Pandas.rolling_mean w s) NaN =
    (if S i <? w then NaN
     else Fin (Pandas.sum (Stated.trailing w i s) / Pandas.Qc_of_nat w)%Qc)
  /\ (w <= S i ->
      length (Stated.trailing w i s) = w /\
      forall j, j < w ->
        nth j (Stated.trailing w i s) 0%Qc = nth (S i - w + j) s 0%Qc)
  /\ nth 0 (Pandas.rolling_mean w s) NaN =
     (if length s <? 100 then Fin (nth 0 s 0%Qc) else NaN).
Proof.
  intros Hi w. pose proof (derived_window_pos (length s)) as Hw. fold w in Hw.
  split; [exact Hw|]. split; [|split].
  - rewrite rolling_mean_nth by exact Hi.
    destruct (S i <? w) eqn:E; [reflexivity|].
    apply Nat.ltb_ge in E.
    rewrite mean_nonempty.
    + now rewrite trailing_length.
    + intro H. apply (f_equal (@length Qc)) in H.
      rewrite trailing_length in H by assumption. simpl in H. lia.
  - intros Hle. split.
    + now apply trailing_length.
    + intros j Hj. now apply trailing_nth.
  - rewrite rolling_mean_nth by lia.
    destruct (length s <? 100) eqn:E.
    + apply Nat.ltb_lt in E. unfold w.
      rewrite (derived_window_small E). simpl.
      destruct s as [|x r]; [simpl in Hi; lia|].
      apply mean_single.
    + apply Nat.ltb_ge in E.
      pose proof (derived_window_large E) as H2. fold w in H2.
      destruct (1 <? w) eqn:F; [reflexivity|].
      apply Nat.ltb_ge in F. lia.
Qed.

Lemma rolling_mean_full_windows_only_witness :
  let s := [Examples.qz 3; Examples.qz 5] in
  let w := derived_window (length s) in
  1 <= w /\
  nth 1 (Pandas.rolling_mean w s) NaN =
    (if 2 <? w then NaN
     else Fin (Pandas.sum (Stated.trailing w 1 s) / Pandas.Qc_of_nat w)%Qc)
  /\ (w <= 2 ->
      length (Stated.trailing w 1 s) = w /\
      forall j, j < w ->
        nth j (Stated.trailing w 1 s) 0%Qc = nth (2 - w + j) s 0%Qc)
  /\ nth 0 (Pandas.rolling_mean w s) NaN =
     (if length s <? 100 then Fin (nth 0 s 0%Qc) else NaN).
Proof.
  apply (@rolling_mean_full_windows_only
           [Examples.qz 3; Examples.qz 5] 1).
  simpl. lia.
Defined.

(** C2, as stated, fails: on 100 samples the derived window is 2 and the
    first output is [NaN], not the first input; the series differs from
    the one that averages over the values available. *)
Lemma rolling_mean_start_is_missing :
  derived_window (length Examples.hundred) = 2 /\
  nth 0 Examples.hundred 0%Qc = Examples.qz 1 /\
  nth 0 (Pandas.rolling_mean (derived_window (length Examples.hundred))
           Examples.hundred) NaN = NaN /\
  nth 0 (Stated.rolling_average (derived_window (length Examples.hundred))
           Examples.hundred) NaN = Fin (Examples.qz 1) /\
  nth 0 (Pandas.rolling_mean (derived_window (length Examples.hundred))
           Examples.hundred) NaN
  <> Fin (nth 0 Examples.hundred 0%Qc) /\
  Pandas.rolling_mean (derived_window (length Examples.hundred))
    Examples.hundred
  <> Stated.rolling_average (derived_window (length Examples.hundred))
       Examples.hundred.
Proof.
  split; [reflexivity|]. split; [reflexivity|]. split; [reflexivity|].
  split; [apply mean_single|]. split; [discriminate|].
  intro H.
  apply (f_equal (fun l => is_finite (nth 0 l NaN))) in H.
  discriminate H.
Qed.

(** C10.  When the filtered sustained table has fewer than 100 rows the
    derived window is 1 and the rolling average, divided by 1e6, is
    element by element the raw throughput divided by 1e6; the smoothed
    line of the saved figure is the raw line. *)
Theorem small_run_smoothing_is_identity d df :
  sustained_timeseries_csv d = Some df ->
  let df_10s :=
    filter (fun r => String.eqb (Sustained.test_name r) target_test) df in
  let throughput := map Sustained.throughput_ops_per_sec df_10s in
  length df_10s < 100 ->
  derived_window (length df_10s) = 1 /\
  map (fun v => fdiv v (Fin million))
      (Pandas.rolling_mean (derived_window (length df_10s)) throughput)
  = map (fun v => Fin (v / million)%Qc) throughput /\
  (df_10s <> [] ->
   exists fig,
     run (plot_sustained_timeseries d)
     = ([Call SustainedTimeseries;
         Savefig SustainedTimeseries (FigSustained fig);
         PrintGenerated SustainedTimeseries], Ok tt) /\
     window_size fig = 1 /\
     rolling_line fig = map (fun p => (fst p, Fin (snd p))) (raw_line fig)).
Proof.
  intros Hfile df_10s throughput Hsmall.
  pose proof (derived_window_small Hsmall) as W.
  assert (R : map (fun v => fdiv v (Fin million))
                (Pandas.rolling_mean (derived_window (length df_10s))
                   throughput)
              = map (fun v => Fin (v / million)%Qc) throughput).
  { rewrite W. unfold Pandas.rolling_mean.
    rewrite rolling_mean_from_one, map_map.
    apply map_ext. intros v. apply fdiv_million. }
  split; [exact W|]. split; [exact R|].
  intros Hne.
  destruct (plot_sustained_timeseries_run d Hfile Hne)
    as [fig [Hrun [Hraw [Hw [Hroll _]]]]].
  exists fig. split; [exact Hrun|]. split; [now rewrite Hw|].
  rewrite Hroll, Hraw. fold df_10s throughput. rewrite R.
  rewrite <- (map_map (fun v => (v / million)%Qc) Fin).
  apply combine_map_r.
Qed.

Lemma small_run_smoothing_is_identity_witness :
  let df_10s :=
    filter (fun r => String.eqb (Sustained.test_name r) target_test)
           Examples.sustained_rows in
  let throughput := map Sustained.throughput_ops_per_sec df_10s in
  derived_window (length df_10s) = 1 /\
  map (fun v => fdiv v (Fin million))
      (Pandas.rolling_mean (derived_window (length df_10s)) throughput)
  = map (fun v => Fin (v / million)%Qc) throughput /\
  (df_10s <> [] ->
   exists fig,
     run (plot_sustained_timeseries Examples.dir_sustained)
     = ([Call SustainedTimeseries;
         Savefig SustainedTimeseries (FigSustained fig);
         PrintGenerated SustainedTimeseries], Ok tt) /\
     window_size fig = 1 /\
     rolling_line fig = map (fun p => (fst p, Fin (snd p))) (raw_line fig)).
Proof.
  apply (@small_run_smoothing_is_identity Examples.dir_sustained
           Examples.sustained_rows eq_refl).
  simpl. lia.
Defined.

End Rolling.

(** ** The sweep chart *)

Section SweepChart.

Import GenerateCharts.

Local Open Scope nat_scope.

Lemma argmax_from_spec (s : Pandas.Series) :
  forall (pre : list Qc) (bi : nat) (b : Qc),
    bi < length pre ->
    nth bi pre 0%Qc = b ->
    (forall j, j < length pre -> (nth j pre 0 <= b)%Qc) ->
    (forall j, j < bi -> (nth j pre 0 < b)%Qc) ->
    let k := Pandas.argmax_from bi b (length pre) s in
    k < length (pre ++ s) /\
    (forall j, j < length (pre ++ s) ->
               (nth j (pre ++ s) 0 <= nth k (pre ++ s) 0)%Qc) /\
    (forall j, j < k -> (nth j (pre ++ s) 0 < nth k (pre ++ s) 0)%Qc).
Proof.
  induction s as [|x r IH]; intros pre bi b Hbi Hb Hle Hlt; simpl.
  - rewrite app_nil_r, Hb. auto.
  - assert (L : length (pre ++ [x]) = S (length pre))
      by (rewrite length_app; simpl; lia).
    replace (pre ++ x :: r) with ((pre ++ [x]) ++ r)
      by (rewrite <- app_assoc; reflexivity).
    rewrite <- L.
    destruct (Qc_ltb b x) eqn:E.
    + apply Qc_ltb_lt in E. apply IH.
      * lia.
      * rewrite app_nth2, Nat.sub_diag by lia. reflexivity.
      * intros j Hj. rewrite L in Hj.
        destruct (Nat.eq_dec j (length pre)) as [->|Hne].
        -- rewrite app_nth2, Nat.sub_diag by lia. apply Qcle_refl.
        -- rewrite app_nth1 by lia. apply Qclt_le_weak.
           eapply Qcle_lt_trans; [apply Hle; lia | exact E].
      * intros j Hj. rewrite app_nth1 by lia.
        eapply Qcle_lt_trans; [apply Hle; lia | exact E].
    + apply Qc_ltb_ge in E. apply IH.
      * lia.
      * rewrite app_nth1 by lia. exact Hb.
      * intros j Hj. rewrite L in Hj.
        destruct (Nat.eq_dec j (length pre)) as [->|Hne].
        -- rewrite app_nth2, Nat.sub_diag by lia. exact E.
        -- rewrite app_nth1 by lia. apply Hle. lia.
      * intros j Hj. rewrite app_nth1 by lia. apply Hlt, Hj.
Qed.

(** [idxmax] on a column with at least one value: the position of a
    maximum, the first one. *)
Lemma idxmax_spec (s : Pandas.Series) :
  s <> [] ->
  exists k,
    Pandas.idxmax s = Ok k /\
    k < length s /\
    (forall j, j < length s -> (nth j s 0 <= nth k s 0)%Qc) /\
    (forall j, j < k -> (nth j s 0 < nth k s 0)%Qc).
Proof.
  destruct s as [|x r]; [congruence|]. intros _.
  exists (Pandas.argmax_from 0 x 1 r). split; [reflexivity|].
  apply (argmax_from_spec r [x] (bi:=0) (b:=x)); simpl.
  - lia.
  - reflexivity.
  - intros [|j] Hj; [apply Qcle_refl | lia].
  - intros j Hj. lia.
Qed.

Lemma combine_map_same {A B C} (f : A -> B) (g : A -> C) (l : list A) :
  combine (map f l) (map g l) = map (fun a => (f a, g a)) l.
Proof. induction l as [|a l IH]; simpl; [reflexivity | now rewrite IH]. Qed.

Lemma nth_error_map_nth {A} (f : A -> Qc) (l : list A) j a :
  nth_error l j = Some a -> nth j (map f l) 0%Qc = f a.
Proof.
  intros H. apply nth_error_nth with (d := 0%Qc).
  rewrite nth_error_map, H. reflexivity.
Qed.

(** The run of [plot_buffer_sizes] on a table with at least one row. *)
Lemma plot_buffer_sizes_run d df :
  buffer_sizes_csv d = Some df ->
  df <> [] ->
  exists fig i r,
    run (plot_buffer_sizes d)
    = ([Call BufferSizes; Savefig BufferSizes (FigSweep fig);
        PrintGenerated BufferSizes], Ok tt) /\
    Pandas.idxmax (map Sweep.throughput_ops_per_sec df) = Ok i /\
    nth_error df i = Some r /\
    sweep_line fig
    = combine (map Sweep.buffer_size df)
        (map (fun v => (v / million)%Qc)
           (map Sweep.throughput_ops_per_sec df)) /\
    optimal_size fig = Sweep.buffer_size r /\
    optimal_throughput fig
    = (Sweep.throughput_ops_per_sec r / million)%Qc /\
    annotate_xy fig = (optimal_size fig, optimal_throughput fig) /\
    annotate_xytext fig
    = ((optimal_size fig * 2)%Z,
       (optimal_throughput fig * Q2Qc (9 # 10))%Qc).
Proof.
  intros Hfile Hne.
  destruct (idxmax_spec (s:=map Sweep.throughput_ops_per_sec df))
    as [i [Hi [Hlen _]]].
  { destruct df; [congruence | discriminate]. }
  rewrite length_map in Hlen.
  destruct (nth_error df i) as [r|] eqn:Hr.
  2:{ apply nth_error_None in Hr. lia. }
  unfold plot_buffer_sizes, run, bind, emit, lift. rewrite Hfile, Hi.
  unfold Pandas.loc. rewrite !nth_error_map, Hr. simpl.
  eexists. exists i, r. split; [reflexivity|]. simpl.
  repeat split; auto.
Qed.

(** C6.  On a sweep table with at least one row the annotated optimal
    point is taken from the row where [throughput_ops_per_sec] is maximal,
    and from the first such row in table order when several rows attain
    the maximum: its key is that row's [buffer_size] and its value that
    row's throughput (in the chart's unit, millions). *)
Theorem optimal_point_is_first_maximum d df :
  buffer_sizes_csv d = Some df ->
  df <> [] ->
  exists fig i r,
    run (plot_buffer_sizes d)
    = ([Call BufferSizes; Savefig BufferSizes (FigSweep fig);
        PrintGenerated BufferSizes], Ok tt) /\
    Pandas.idxmax (map Sweep.throughput_ops_per_sec df) = Ok i /\
    nth_error df i = Some r /\
    (forall j r', nth_error df j = Some r' ->
       (Sweep.throughput_ops_per_sec r' <= Sweep.throughput_ops_per_sec r)%Qc)
    /\
    (forall j r', j < i -> nth_error df j = Some r' ->
       (Sweep.throughput_ops_per_sec r' < Sweep.throughput_ops_per_sec r)%Qc)
    /\
    optimal_size fig = Sweep.buffer_size r /\
    optimal_throughput fig = (Sweep.throughput_ops_per_sec r / million)%Qc /\
    annotate_xy fig
    = (Sweep.buffer_size r,
       (Sweep.throughput_ops_per_sec r / million)%Qc).
Proof.
  intros Hfile Hne.
  destruct (plot_buffer_sizes_run d Hfile Hne)
    as [fig [i [r [Hrun [Hi [Hr [_ [Hk [Hv [Hxy _]]]]]]]]]].
  destruct (idxmax_spec (s:=map Sweep.throughput_ops_per_sec df))
    as [k [Hk' [Hlen [Hmax Hfirst]]]].
  { destruct df; [congruence | discriminate]. }
  assert (k = i) by congruence. subst k.
  pose proof (nth_error_map_nth Sweep.throughput_ops_per_sec _ _ Hr) as Hnth.
  exists fig, i, r. repeat split; auto.
  - intros j r' Hj.
    rewrite <- Hnth, <- (nth_error_map_nth _ _ _ Hj).
    apply Hmax. rewrite length_map.
    apply nth_error_Some. congruence.
  - intros j r' Hlt Hj.
    rewrite <- Hnth, <- (nth_error_map_nth _ _ _ Hj).
    apply Hfirst, Hlt.
  - rewrite Hxy, Hk, Hv. reflexivity.
Qed.

Lemma optimal_point_is_first_maximum_witness :
  exists fig i r,
    run (plot_buffer_sizes Examples.dir_sweep_only)
    = ([Call BufferSizes; Savefig BufferSizes (FigSweep fig);
        PrintGenerated BufferSizes], Ok tt) /\
    Pandas.idxmax (map Sweep.throughput_ops_per_sec Examples.sweep_rows)
    = Ok i /\
    nth_error Examples.sweep_rows i = Some r /\
    (forall j r', nth_error Examples.sweep_rows j = Some r' ->
       (Sweep.throughput_ops_per_sec r' <= Sweep.throughput_ops_per_sec r)%Qc)
    /\
    (forall j r', j < i -> nth_error Examples.sweep_rows j = Some r' ->
       (Sweep.throughput_ops_per_sec r' < Sweep.throughput_ops_per_sec r)%Qc)
    /\
    optimal_size fig = Sweep.buffer_size r /\
    optimal_throughput fig = (Sweep.throughput_ops_per_sec r / million)%Qc /\
    annotate_xy fig
    = (Sweep.buffer_size r,
       (Sweep.throughput_ops_per_sec r / million)%Qc).
Proof.
  apply (@optimal_point_is_first_maximum Examples.dir_sweep_only
           Examples.sweep_rows eq_refl).
  discriminate.
Defined.

(** The table [(1,100), (2,400), (4,900), (8,200)]: the optimum is the
    third row, and a tie goes to the earlier row. *)
Example idxmax_sweep_rows :
  Pandas.idxmax (map Sweep.throughput_ops_per_sec Examples.sweep_rows)
  = Ok 2 /\
  Pandas.idxmax [Examples.qz 5; Examples.qz 9; Examples.qz 9] = Ok 1.
Proof. split; reflexivity. Qed.

(** C3, as the code has it.  The primary series of the sweep chart is the
    list of [(buffer_size, throughput_ops_per_sec / 1e6)] pairs in the
    order of the table's rows; nothing sorts it, so it ascends in
    [buffer_size] exactly when the rows of the table do. *)
Theorem sweep_line_in_table_order d df :
  buffer_sizes_csv d = Some df ->
  df <> [] ->
  exists fig,
    run (plot_buffer_sizes d)
    = ([Call BufferSizes; Savefig BufferSizes (FigSweep fig);
        PrintGenerated BufferSizes], Ok tt) /\
    sweep_line fig
    = map (fun r => (Sweep.buffer_size r,
                     (Sweep.throughput_ops_per_sec r / million)%Qc)) df /\
    (StronglySorted Z.le (map fst (sweep_line fig)) <->
     StronglySorted Z.le (map Sweep.buffer_size df)).
Proof.
  intros Hfile Hne.
  destruct (plot_buffer_sizes_run d Hfile Hne)
    as [fig [i [r [Hrun [_ [_ [Hline _]]]]]]].
  assert (E : sweep_line fig
              = map (fun r => (Sweep.buffer_size r,
                       (Sweep.throughput_ops_per_sec r / million)%Qc)) df).
  { rewrite Hline, map_map. apply combine_map_same. }
  exists fig. split; [exact Hrun|]. split; [exact E|].
  rewrite E, map_map. simpl. rewrite (map_ext _ Sweep.buffer_size);
    [reflexivity | reflexivity].
Qed.

Lemma sweep_line_in_table_order_witness :
  exists fig,
    run (plot_buffer_sizes Examples.dir_sweep_unordered)
    = ([Call BufferSizes; Savefig BufferSizes (FigSweep fig);
        PrintGenerated BufferSizes], Ok tt) /\
    sweep_line fig
    = map (fun r => (Sweep.buffer_size r,
                     (Sweep.throughput_ops_per_sec r / million)%Qc))
          Examples.sweep_unordered /\
    (StronglySorted Z.le (map fst (sweep_line fig)) <->
     StronglySorted Z.le (map Sweep.buffer_size Examples.sweep_unordered)).
Proof.
  apply (@sweep_line_in_table_order Examples.dir_sweep_unordered
           Examples.sweep_unordered eq_refl).
  discriminate.
Defined.

(** C3, as stated, fails: for the table with rows [(8,200), (1,100)] the
    saved primary series starts at size 8 and continues with size 1. *)
Lemma sweep_line_not_sorted :
  exists fig,
    run (plot_buffer_sizes Examples.dir_sweep_unordered)
    = ([Call BufferSizes; Savefig BufferSizes (FigSweep fig);
        PrintGenerated BufferSizes], Ok tt) /\
    map fst (sweep_line fig) = [8%Z; 1%Z] /\
    ~ StronglySorted Z.le (map fst (sweep_line fig)).
Proof.
  destruct (@plot_buffer_sizes_run Examples.dir_sweep_unordered
              Examples.sweep_unordered eq_refl)
    as [fig [i [r [Hrun [_ [_ [Hline _]]]]]]]; [discriminate|].
  exists fig. split; [exact Hrun|].
  assert (E : map fst (sweep_line fig) = [8%Z; 1%Z])
    by (rewrite Hline; reflexivity).
  split; [exact E|]. rewrite E. intro S.
  inversion S as [|? ? _ F]. inversion F as [|? ? Hle _]. lia.
Qed.

End SweepChart.

(** ** The statistics of the sustained chart *)

Section SustainedStatistics.

Import GenerateCharts Outcome.

Local Open Scope Qc_scope.

Lemma Qc_max_cases x y :
  (Pandas.Qc_max x y = x \/ Pandas.Qc_max x y = y) /\
  x <= Pandas.Qc_max x y /\ y <= Pandas.Qc_max x y.
Proof.
  unfold Pandas.Qc_max. destruct (Qc_leb x y) eqn:E.
  - apply Qc_leb_le in E. repeat split; auto. apply Qcle_refl.
  - destruct (Qc_leb_total x y) as [H|H]; [congruence|].
    apply Qc_leb_le in H. repeat split; auto. apply Qcle_refl.
Qed.

Lemma Qc_min_cases x y :
  (Pandas.Qc_min x y = x \/ Pandas.Qc_min x y = y) /\
  Pandas.Qc_min x y <= x /\ Pandas.Qc_min x y <= y.
Proof.
  unfold Pandas.Qc_min. destruct (Qc_leb x y) eqn:E.
  - apply Qc_leb_le in E. repeat split; auto. apply Qcle_refl.
  - destruct (Qc_leb_total x y) as [H|H]; [congruence|].
    apply Qc_leb_le in H. repeat split; auto. apply Qcle_refl.
Qed.

Lemma fold_max_spec r :
  forall x,
    In (fold_left Pandas.Qc_max r x) (x :: r) /\
    forall y, In y (x :: r) -> y <= fold_left Pandas.Qc_max r x.
Proof.
  induction r as [|z r IH]; intros x; simpl.
  - split; [auto|]. intros y [<-|[]]. apply Qcle_refl.
  - destruct (IH (Pandas.Qc_max x z)) as [Hin Hub].
    destruct (Qc_max_cases x z) as [Hc [Hx Hz]].
    split.
    + simpl in Hin. destruct Hin as [Hin|Hin]; [|auto].
      rewrite <- Hin. destruct Hc as [->| ->]; auto.
    + intros y [<-|[<-|Hy]].
      * eapply Qcle_trans; [exact Hx | apply Hub; left; reflexivity].
      * eapply Qcle_trans; [exact Hz | apply Hub; left; reflexivity].
      * apply Hub. right. exact Hy.
Qed.

Lemma fold_min_spec r :
  forall x,
    In (fold_left Pandas.Qc_min r x) (x :: r) /\
    forall y, In y (x :: r) -> fold_left Pandas.Qc_min r x <= y.
Proof.
  induction r as [|z r IH]; intros x; simpl.
  - split; [auto|]. intros y [<-|[]]. apply Qcle_refl.
  - destruct (IH (Pandas.Qc_min x z)) as [Hin Hlb].
    destruct (Qc_min_cases x z) as [Hc [Hx Hz]].
    split.
    + simpl in Hin. destruct Hin as [Hin|Hin]; [|auto].
      rewrite <- Hin. destruct Hc as [->| ->]; auto.
    + intros y [<-|[<-|Hy]].
      * eapply Qcle_trans; [apply Hlb; left; reflexivity | exact Hx].
      * eapply Qcle_trans; [apply Hlb; left; reflexivity | exact Hz].
      * apply Hlb. right. exact Hy.
Qed.

Lemma max_spec (s : Pandas.Series) :
  s <> [] ->
  exists m, Pandas.max s = Fin m /\ In m s /\ forall y, In y s -> y <= m.
Proof.
  destruct s as [|x r]; [congruence|]. intros _.
  exists (fold_left Pandas.Qc_max r x). split; [reflexivity|].
  apply fold_max_spec.
Qed.

Lemma min_spec (s : Pandas.Series) :
  s <> [] ->
  exists m, Pandas.min s = Fin m /\ In m s /\ forall y, In y s -> m <= y.
Proof.
  destruct s as [|x r]; [congruence|]. intros _.
  exists (fold_left Pandas.Qc_min r x). split; [reflexivity|].
  apply fold_min_spec.
Qed.

Lemma million_neq_0 : million <> 0.
Proof. discriminate. Qed.

Lemma million_pos : 0 < million.
Proof. apply Qc_ltb_lt. reflexivity. Qed.

Lemma Qcdiv_pos (a m : Qc) : 0 < m -> 0 < a -> 0 < a / m.
Proof.
  intros Hm Ha. apply Qcnot_le_lt. intro H.
  apply (Qcmult_le_compat_r _ _ m) in H; [|apply Qclt_le_weak, Hm].
  replace (a / m * m) with a in H
    by (field; intro E; rewrite E in Hm; exact (Qclt_not_eq _ _ Hm eq_refl)).
  replace (0 * m) with 0 in H by ring.
  exact (Qclt_not_le _ _ Ha H).
Qed.

Lemma Qcdiv_eq_0 (a m : Qc) : m <> 0 -> a / m = 0 -> a = 0.
Proof.
  intros Hm H. replace a with (a / m * m) by (field; exact Hm).
  rewrite H. ring.
Qed.

(** The expression that computes [variance], on finite inputs. *)
Lemma variance_expression (mx mn avg : Qc) :
  mn <= mx ->
  fmul (fdiv (fsub (fdiv (Fin mx) (Fin million)) (fdiv (Fin mn) (Fin million)))
             (fdiv (Fin avg) (Fin million)))
       (Fin (Q2Qc (100 # 1)))
  = if Qc_eqb avg 0
    then (if Qc_eqb mx mn then NaN else PInf)
    else Fin ((mx - mn) / avg * Q2Qc (100 # 1)).
Proof.
  intros Hle. rewrite !fdiv_million.
  pose proof million_neq_0 as HM. pose proof million_pos as HP.
  generalize dependent million.
  intros M HM HP. unfold fsub, fneg, fadd, fdiv.
  destruct (Qc_eqb avg 0) eqn:Ea.
  - apply Qc_eqb_eq in Ea. subst avg.
    replace (0 / M) with 0 by (field; exact HM).
    replace (Qc_eqb 0 0) with true by reflexivity.
    destruct (Qc_eqb mx mn) eqn:Em.
    + apply Qc_eqb_eq in Em. subst mx.
      replace (mn / M + - (mn / M)) with 0 by (field; exact HM).
      reflexivity.
    + apply Qc_eqb_neq in Em.
      assert (P : 0 < mx / M + - (mn / M)).
      { replace (mx / M + - (mn / M)) with ((mx - mn) / M)
          by (field; exact HM).
        apply Qcdiv_pos; [exact HP|].
        apply Qcnot_le_lt. intro H. apply Em.
        apply Qcle_antisym; [|exact Hle].
        apply (Qcplus_le_compat _ _ mn mn) in H; [|apply Qcle_refl].
        replace (mx - mn + mn) with mx in H by ring.
        replace (0 + mn) with mn in H by ring. exact H. }
      replace (Qc_eqb (mx / M + - (mn / M)) 0) with false
        by (symmetry; apply Qc_eqb_neq; intro E; rewrite E in P;
            exact (Qclt_not_eq _ _ P eq_refl)).
      apply Qc_ltb_lt in P. rewrite P. reflexivity.
  - apply Qc_eqb_neq in Ea.
    replace (Qc_eqb (avg / M) 0) with false
      by (symmetry; apply Qc_eqb_neq; intro E; apply Ea;
          exact (Qcdiv_eq_0 HM E)).
    simpl. f_equal. field. split; assumption.
Qed.



(** Rows with throughput 100 and 300: the variance is 100 percent. *)
Example variance_of_sample :
  fmul (fdiv (fsub (fdiv (Fin (Examples.qz 300)) (Fin million))
                   (fdiv (Fin (Examples.qz 100)) (Fin million)))
             (fdiv (Fin (Examples.qz 200)) (Fin million)))
       (Fin (Q2Qc (100 # 1)))
  = Fin (Examples.qz 100).
Proof.
  rewrite variance_expression.
  - simpl. f_equal; try (apply Qc_is_canon; reflexivity).
  - apply Qc_leb_le. reflexivity.
Qed.


End SustainedStatistics.

(** ** Integers inside the rationals, and the floor *)

Section Floor.

Local Open Scope Qc_scope.

Import Pandas.

Lemma this_Q2Qc (q : Q) : (this (Q2Qc q) == q)%Q.
Proof. simpl. apply Qred_correct. Qed.

Lemma Qc_of_Z_le (a b : Z) : (a <= b)%Z <-> Qc_of_Z a <= Qc_of_Z b.
Proof.
  unfold Qcle, Qc_of_Z. rewrite !this_Q2Qc.
  rewrite <- Zle_Qle. reflexivity.
Qed.

Lemma Qc_of_Z_lt (a b : Z) : (a < b)%Z <-> Qc_of_Z a < Qc_of_Z b.
Proof.
  unfold Qclt, Qc_of_Z. rewrite !this_Q2Qc.
  rewrite <- Zlt_Qlt. reflexivity.
Qed.

Lemma Qc_of_Z_plus (a b : Z) : Qc_of_Z (a + b) = Qc_of_Z a + Qc_of_Z b.
Proof.
  apply Qc_is_canon. unfold Qc_of_Z, Qcplus.
  rewrite !this_Q2Qc. rewrite inject_Z_plus. reflexivity.
Qed.

Lemma Qc_of_Z_0 : Qc_of_Z 0 = 0.
Proof. apply Qc_is_canon. reflexivity. Qed.

Lemma Qc_of_Z_1 : Qc_of_Z 1 = 1.
Proof. apply Qc_is_canon. reflexivity. Qed.

Lemma Qc_of_nat_le (a b : nat) : (a <= b)%nat <-> Qc_of_nat a <= Qc_of_nat b.
Proof. unfold Qc_of_nat. rewrite <- Qc_of_Z_le. lia. Qed.

Lemma Qc_of_nat_lt (a b : nat) : (a < b)%nat <-> Qc_of_nat a < Qc_of_nat b.
Proof. unfold Qc_of_nat. rewrite <- Qc_of_Z_lt. lia. Qed.

Lemma Qc_of_nat_plus (a b : nat) :
  Qc_of_nat (a + b) = Qc_of_nat a + Qc_of_nat b.
Proof. unfold Qc_of_nat. rewrite Nat2Z.inj_add. apply Qc_of_Z_plus. Qed.

Lemma Qc_of_nat_0 : Qc_of_nat 0 = 0.
Proof. apply Qc_of_Z_0. Qed.

Lemma Qc_of_nat_1 : Qc_of_nat 1 = 1.
Proof. apply Qc_of_Z_1. Qed.

Lemma Qc_floor_spec (h : Qc) :
  Qc_of_Z (Qfloor h) <= h /\ h < Qc_of_Z (Qfloor h + 1).
Proof.
  unfold Qcle, Qclt, Qc_of_Z. rewrite !this_Q2Qc.
  split; [apply Qfloor_le | apply Qlt_floor].
Qed.

Lemma Qc_floor_unique (h : Qc) (z : Z) :
  Qc_of_Z z <= h -> h < Qc_of_Z (z + 1) -> Qfloor h = z.
Proof.
  intros Hlo Hhi. destruct (Qc_floor_spec h) as [Flo Fhi].
  assert (A : (z < Qfloor h + 1)%Z).
  { apply Qc_of_Z_lt. eapply Qcle_lt_trans; eauto. }
  assert (B : (Qfloor h < z + 1)%Z).
  { apply Qc_of_Z_lt. eapply Qcle_lt_trans; eauto. }
  lia.
Qed.

(** The floor of a non-negative rational, as a natural number. *)
Lemma Qc_floor_nat (h : Qc) :
  0 <= h ->
  let k := Z.to_nat (Qfloor h) in
  Qc_of_nat k <= h /\ h < Qc_of_nat k + 1.
Proof.
  intros H0 k. destruct (Qc_floor_spec h) as [Flo Fhi].
  assert (P : (0 <= Qfloor h)%Z).
  { assert (A : (0 < Qfloor h + 1)%Z).
    { apply Qc_of_Z_lt. rewrite Qc_of_Z_0.
      eapply Qcle_lt_trans; eauto. }
    lia. }
  unfold k, Qc_of_nat. rewrite Z2Nat.id by exact P.
  split; [exact Flo|]. rewrite <- Qc_of_Z_1, <- Qc_of_Z_plus. exact Fhi.
Qed.

Lemma Qc_floor_of_nat (m : nat) (h : Qc) :
  Qc_of_nat m <= h -> h < Qc_of_nat m + 1 -> Z.to_nat (Qfloor h) = m.
Proof.
  intros Hlo Hhi. rewrite (Qc_floor_unique (h:=h) (z:=Z.of_nat m)).
  - apply Nat2Z.id.
  - exact Hlo.
  - rewrite Qc_of_Z_plus, Qc_of_Z_1. exact Hhi.
Qed.

End Floor.

(** ** The quantile *)

Section Quantile.

Local Open Scope Qc_scope.

Import Pandas.


Lemma sorted_nth_le (s : Series) (i j : nat) :
  (i <= j)%nat -> (j < length s)%nat ->
  nth i (sorted Qc_leb s) 0 <= nth j (sorted Qc_leb s) 0.
Proof.
  intros Hij Hj. apply Qc_leb_le.
  apply (StronglySorted_nth Qc_leb_total).
  - apply sorted_StronglySorted;
      [apply Qc_leb_total | apply Qc_leb_trans].
  - exact Hij.
  - now rewrite sorted_length.
Qed.

(** A linear interpolation stays between its end points. *)
Lemma lerp_between (lo hi g : Qc) :
  lo <= hi -> 0 <= g -> g <= 1 ->
  lo <= lo + (hi - lo) * g /\ lo + (hi - lo) * g <= hi.
Proof.
  intros Hlh Hg0 Hg1.
  assert (D : 0 <= hi - lo).
  { apply (Qcplus_le_compat _ _ (- lo) (- lo)) in Hlh; [|apply Qcle_refl].
    replace (lo + - lo) with 0 in Hlh by ring. exact Hlh. }
  split.
  - pose proof (Qcmult_le_compat_r _ _ g D Hg0) as H.
    replace (0 * g) with 0 in H by ring.
    apply (Qcplus_le_compat lo lo) in H; [|apply Qcle_refl].
    replace (lo + 0) with lo in H by ring. exact H.
  - pose proof (Qcmult_le_compat_r _ _ (hi - lo) Hg1 D) as H.
    apply (Qcplus_le_compat lo lo) in H; [|apply Qcle_refl].
    replace (lo + g * (hi - lo)) with (lo + (hi - lo) * g) in H by ring.
    replace (lo + 1 * (hi - lo)) with hi in H by ring. exact H.
Qed.

Lemma quantile_unfold (s : Series) (q : Qc) :
  s <> [] -> 0 <= q -> q <= 1 ->
  quantile s q =
  let arr := sorted Qc_leb s in
  let n := length s in
  let virtual_index := Qc_of_nat (n - 1) * q in
  let previous := Z.to_nat (Qfloor virtual_index) in
  if Qc_leb (Qc_of_nat (n - 1)) virtual_index
  then Ok (Fin (nth (n - 1) arr 0))
  else
    Ok (Fin (nth previous arr 0
             + (nth (S previous) arr 0 - nth previous arr 0)
               * (virtual_index - Qc_of_nat previous))).
Proof.
  intros Hs H0 H1. unfold quantile.
  apply Qc_leb_le in H0, H1. rewrite H0, H1. simpl.
  destruct s; [congruence | reflexivity].
Qed.

Lemma Qc_of_nat_nonneg (n : nat) : 0 <= Qc_of_nat n.
Proof. rewrite <- Qc_of_nat_0. apply Qc_of_nat_le. lia. Qed.

(** The virtual index lies between 0 and the last position. *)
Lemma virtual_index_range (n : nat) (q : Qc) :
  0 <= q -> q <= 1 ->
  0 <= Qc_of_nat n * q /\ Qc_of_nat n * q <= Qc_of_nat n.
Proof.
  intros H0 H1. pose proof (Qc_of_nat_nonneg n) as Hn. split.
  - pose proof (Qcmult_le_compat_r _ _ (Qc_of_nat n) H0 Hn) as H.
    replace (0 * Qc_of_nat n) with 0 in H by ring.
    replace (q * Qc_of_nat n) with (Qc_of_nat n * q) in H by ring.
    exact H.
  - pose proof (Qcmult_le_compat_r _ _ (Qc_of_nat n) H1 Hn) as H.
    replace (1 * Qc_of_nat n) with (Qc_of_nat n) in H by ring.
    replace (q * Qc_of_nat n) with (Qc_of_nat n * q) in H by ring.
    exact H.
Qed.

Lemma Qc_half_inv : Q2Qc (1 # 2) = / (1 + 1).
Proof. apply Qc_is_canon. reflexivity. Qed.

Lemma Qc_two : Q2Qc (2 # 1) = 1 + 1.
Proof. apply Qc_is_canon. reflexivity. Qed.

Lemma Qc_two_neq_0 : 1 + 1 <> 0.
Proof. apply Qc_eqb_neq. reflexivity. Qed.

Lemma half_of_even (m : nat) :
  Qc_of_nat (2 * m) * Q2Qc (1 # 2) = Qc_of_nat m.
Proof.
  replace (2 * m)%nat with (m + m)%nat by lia.
  rewrite Qc_of_nat_plus, Qc_half_inv. field. exact Qc_two_neq_0.
Qed.

Lemma half_of_odd (m : nat) :
  Qc_of_nat (2 * m + 1) * Q2Qc (1 # 2) = Qc_of_nat m + Q2Qc (1 # 2).
Proof.
  replace (2 * m + 1)%nat with (m + m + 1)%nat by lia.
  rewrite !Qc_of_nat_plus, Qc_of_nat_1, Qc_half_inv. field.
  exact Qc_two_neq_0.
Qed.

Lemma Qc_half_lt_1 : Q2Qc (1 # 2) < 1.
Proof. apply Qc_ltb_lt. reflexivity. Qed.

Lemma Qc_half_nonneg : 0 <= Q2Qc (1 # 2).
Proof. apply Qc_leb_le. reflexivity. Qed.

(** In exact rational arithmetic the value at [q = 1/2] is the
    sorted-array midpoint. *)
Lemma quantile_half_is_median (s : Series) :
  s <> [] -> quantile s (Q2Qc (1 # 2)) = Ok (Stated.median s).
Proof.
  intros Hs.
  rewrite quantile_unfold;
    [|exact Hs|exact Qc_half_nonneg|apply Qclt_le_weak, Qc_half_lt_1].
  unfold Stated.median. cbv zeta.
  destruct s as [|x r] eqn:Es; [congruence|]. rewrite <- Es.
  assert (Hn : (length s = S (length r))%nat) by (rewrite Es; reflexivity).
  set (arr := sorted Qc_leb s). clearbody arr. rewrite Hn.
  replace (S (length r) - 1)%nat with (length r) by lia.
  destruct (Nat.Even_or_Odd (length r)) as [[m Hm]|[m Hm]]; rewrite Hm.
  - (* an odd number of samples *)
    replace (Nat.even (S (2 * m))) with false
      by (symmetry; rewrite Nat.even_succ, <- Nat.negb_even,
            Nat.even_mul; reflexivity).
    replace (S (2 * m) / 2)%nat with m
      by (apply Nat.div_unique with 1%nat; lia).
    rewrite half_of_even.
    destruct (Qc_leb (Qc_of_nat (2 * m)) (Qc_of_nat m)) eqn:E.
    + apply Qc_leb_le, Qc_of_nat_le in E.
      replace (2 * m)%nat with m by lia. reflexivity.
    + rewrite (@Qc_floor_of_nat m (Qc_of_nat m)).
      * do 2 f_equal. ring.
      * apply Qcle_refl.
      * rewrite <- Qc_of_nat_1, <- Qc_of_nat_plus. apply Qc_of_nat_lt. lia.
  - (* an even number of samples *)
    replace (Nat.even (S (2 * m + 1))) with true
      by (symmetry; replace (S (2 * m + 1)) with (2 * (m + 1))%nat by lia;
          rewrite Nat.even_mul; reflexivity).
    replace (S (2 * m + 1) / 2)%nat with (S m)
      by (apply Nat.div_unique with 0%nat; lia).
    replace (S m - 1)%nat with m by lia.
    rewrite half_of_odd.
    assert (Lo : Qc_of_nat m <= Qc_of_nat m + Q2Qc (1 # 2)).
    { pose proof (Qcplus_le_compat _ _ _ _ (Qcle_refl (Qc_of_nat m))
                    Qc_half_nonneg) as H.
      replace (Qc_of_nat m + 0) with (Qc_of_nat m) in H by ring. exact H. }
    assert (Hi : Qc_of_nat m + Q2Qc (1 # 2) < Qc_of_nat m + 1).
    { apply Qcnot_le_lt. intro H.
      apply (Qcplus_le_compat _ _ (- Qc_of_nat m) (- Qc_of_nat m)) in H;
        [|apply Qcle_refl].
      replace (Qc_of_nat m + 1 + - Qc_of_nat m) with 1 in H by ring.
      replace (Qc_of_nat m + Q2Qc (1 # 2) + - Qc_of_nat m)
        with (Q2Qc (1 # 2)) in H by ring.
      exact (Qclt_not_le _ _ Qc_half_lt_1 H). }
    destruct (Qc_leb (Qc_of_nat (2 * m + 1))
                (Qc_of_nat m + Q2Qc (1 # 2))) eqn:E.
    + exfalso. apply Qc_leb_le in E.
      assert (F : Qc_of_nat (2 * m + 1) < Qc_of_nat m + 1)
        by (eapply Qcle_lt_trans; eauto).
      rewrite <- Qc_of_nat_1, <- Qc_of_nat_plus in F.
      apply Qc_of_nat_lt in F. lia.
    + rewrite (@Qc_floor_of_nat m _ Lo Hi).
      do 2 f_equal. rewrite Qc_half_inv, Qc_two. field.
      exact Qc_two_neq_0.
Qed.


Lemma Qc_leb_false_lt (x y : Qc) : Qc_leb x y = false -> y < x.
Proof.
  intros H. apply Qcnot_le_lt. intro L. apply Qc_leb_le in L. congruence.
Qed.



(** Ninety-nine samples of 10 and one of 1000: the median is 10, P99 is
    interpolated to 19.9 and P99.9 to 901.99. *)
Example quantile_of_skewed_samples :
  let s := repeat (Examples.qz 10) 99 ++ [Examples.qz 1000] in
  quantile s (Q2Qc (50 # 100)) = Ok (Fin (Examples.qz 10)) /\
  quantile s (Q2Qc (99 # 100)) = Ok (Fin (Q2Qc (199 # 10))) /\
  quantile s (Q2Qc (999 # 1000)) = Ok (Fin (Q2Qc (90199 # 100))) /\
  quantile [Examples.qz 1; Examples.qz 2; Examples.qz 3; Examples.qz 4]
           (Q2Qc (50 # 100))
  = Ok (Fin (Q2Qc (5 # 2))).
Proof.
  repeat split; vm_compute; do 2 f_equal; apply Qc_is_canon; reflexivity.
Qed.

End Quantile.

(** ** The quantile in binary64 *)

Section QuantileBinary64.

Import PrimFloat.

Local Open Scope float_scope.


End QuantileBinary64.

(** * Further properties of the script *)

(** ** What the locator depends on *)

Section LocatorFrame.

Import GenerateCharts Outcome.

Local Open Scope nat_scope.




End LocatorFrame.

(** ** The sustained chart *)

Section SustainedChart.

Import GenerateCharts Outcome.

Local Open Scope nat_scope.

(** X4.  When the sustained table is present but no row carries the name
    of the 10-second test, [plot_sustained_timeseries] prints its notice,
    saves no figure and returns: a skip, not a failure. *)
Theorem sustained_without_target_rows_is_skipped d df :
  sustained_timeseries_csv d = Some df ->
  Forall (fun r => Sustained.test_name r <> target_test) df ->
  run (plot_sustained_timeseries d)
  = ([Call SustainedTimeseries; PrintNoTenSecondData], Ok tt) /\
  rendered SustainedTimeseries (fst (run (plot_sustained_timeseries d)))
  = false.
Proof.
  intros Hfile Hnone.
  assert (E : filter (fun r => String.eqb (Sustained.test_name r) target_test)
                df = []).
  { clear Hfile. induction Hnone as [|r df Hr _ IH]; simpl; [reflexivity|].
    apply String.eqb_neq in Hr. rewrite Hr. exact IH. }
  unfold plot_sustained_timeseries, run, bind, emit.
  rewrite Hfile, E. split; reflexivity.
Qed.

Lemma sustained_without_target_rows_is_skipped_witness :
  run (plot_sustained_timeseries
         {| buffer_sizes_csv := None;
            sustained_timeseries_csv :=
              Some [Sustained.Row "warmup" (Examples.qz 1) (Examples.qz 5)];
            latency_samples_csv := None |})
  = ([Call SustainedTimeseries; PrintNoTenSecondData], Ok tt) /\
  rendered SustainedTimeseries
    (fst (run (plot_sustained_timeseries
         {| buffer_sizes_csv := None;
            sustained_timeseries_csv :=
              Some [Sustained.Row "warmup" (Examples.qz 1) (Examples.qz 5)];
            latency_samples_csv := None |})))
  = false.
Proof.
  apply (@sustained_without_target_rows_is_skipped
           {| buffer_sizes_csv := None;
              sustained_timeseries_csv :=
                Some [Sustained.Row "warmup" (Examples.qz 1) (Examples.qz 5)];
              latency_samples_csv := None |}
           [Sustained.Row "warmup" (Examples.qz 1) (Examples.qz 5)] eq_refl).
  repeat constructor. discriminate.
Defined.

Lemma combine_map_fst {A B} (xs : list A) (ys : list B) :
  length xs = length ys -> map fst (combine xs ys) = xs.
Proof.
  revert ys. induction xs as [|x xs IH]; intros [|y ys] H; simpl in *;
    try reflexivity; try discriminate.
  f_equal. apply IH. lia.
Qed.

(** X5.  In the saved sustained figure the raw line and the rolling-average
    line have one point per row of the 10-second test, at the same elapsed
    times in the same order; rows of other tests contribute nothing. *)
Theorem sustained_lines_share_times d df :
  sustained_timeseries_csv d = Some df ->
  let df_10s :=
    filter (fun r => String.eqb (Sustained.test_name r) target_test) df in
  df_10s <> [] ->
  exists fig,
    run (plot_sustained_timeseries d)
    = ([Call SustainedTimeseries;
        Savefig SustainedTimeseries (FigSustained fig);
        PrintGenerated SustainedTimeseries], Ok tt) /\
    map fst (raw_line fig) = map Sustained.elapsed_time_sec df_10s /\
    map fst (rolling_line fig) = map Sustained.elapsed_time_sec df_10s /\
    length (raw_line fig) = length df_10s /\
    length (rolling_line fig) = length df_10s /\
    Forall (fun r => Sustained.test_name r = target_test) df_10s.
Proof.
  intros Hfile df_10s Hne.
  destruct (plot_sustained_timeseries_run d Hfile Hne)
    as [fig [Hrun [Hraw [_ [Hroll _]]]]].
  fold df_10s in Hraw, Hroll.
  assert (L1 : length (map Sustained.elapsed_time_sec df_10s)
               = length (map (fun v => (v / million)%Qc)
                           (map Sustained.throughput_ops_per_sec df_10s)))
    by (rewrite !length_map; reflexivity).
  assert (L2 : length (map Sustained.elapsed_time_sec df_10s)
               = length (map (fun v => fdiv v (Fin million))
                           (Pandas.rolling_mean
                              (derived_window (length df_10s))
                              (map Sustained.throughput_ops_per_sec df_10s)))).
  { unfold Pandas.rolling_mean.
    rewrite !length_map, rolling_mean_from_length, length_map. reflexivity. }
  exists fig. split; [exact Hrun|].
  rewrite Hraw, Hroll.
  split; [apply combine_map_fst, L1|].
  split; [apply combine_map_fst, L2|].
  split; [rewrite length_combine, <- L1, length_map; lia|].
  split; [rewrite length_combine, <- L2, length_map; lia|].
  apply Forall_forall. intros r Hr. apply filter_In in Hr.
  apply String.eqb_eq, Hr.
Qed.

Lemma sustained_lines_share_times_witness :
  let df_10s :=
    filter (fun r => String.eqb (Sustained.test_name r) target_test)
           Examples.sustained_rows in
  exists fig,
    run (plot_sustained_timeseries Examples.dir_sustained)
    = ([Call SustainedTimeseries;
        Savefig SustainedTimeseries (FigSustained fig);
        PrintGenerated SustainedTimeseries], Ok tt) /\
    map fst (raw_line fig) = map Sustained.elapsed_time_sec df_10s /\
    map fst (rolling_line fig) = map Sustained.elapsed_time_sec df_10s /\
    length (raw_line fig) = length df_10s /\
    length (rolling_line fig) = length df_10s /\
    Forall (fun r => Sustained.test_name r = target_test) df_10s.
Proof.
  apply (@sustained_lines_share_times Examples.dir_sustained
           Examples.sustained_rows eq_refl).
  discriminate.
Defined.

End SustainedChart.

(** ** Means and ranges *)

Section Ranges.

Import GenerateCharts Outcome.

Local Open Scope Qc_scope.

Lemma Qcpos_neq_0 (m : Qc) : 0 < m -> m <> 0.
Proof. intros H E. rewrite E in H. exact (Qclt_not_eq _ _ H eq_refl). Qed.

Lemma Qcdiv_le_upper (a b m : Qc) : 0 < m -> a <= b * m -> a / m <= b.
Proof.
  intros Hm H. apply Qcnot_lt_le. intro L.
  apply (Qcmult_lt_compat_r _ _ m Hm) in L.
  replace (a / m * m) with a in L by (field; apply Qcpos_neq_0, Hm).
  exact (Qclt_not_le _ _ L H).
Qed.

Lemma Qcdiv_le_lower (a b m : Qc) : 0 < m -> b * m <= a -> b <= a / m.
Proof.
  intros Hm H. apply Qcnot_lt_le. intro L.
  apply (Qcmult_lt_compat_r _ _ m Hm) in L.
  replace (a / m * m) with a in L by (field; apply Qcpos_neq_0, Hm).
  exact (Qclt_not_le _ _ L H).
Qed.

Lemma Qcdiv_le_compat (x y m : Qc) : 0 < m -> x <= y -> x / m <= y / m.
Proof.
  intros Hm H. apply Qcdiv_le_upper; [exact Hm|].
  replace (y / m * m) with y by (field; apply Qcpos_neq_0, Hm). exact H.
Qed.

Lemma Qc_of_nat_S (n : nat) : Pandas.Qc_of_nat (S n) = 1 + Pandas.Qc_of_nat n.
Proof.
  change (S n) with (1 + n)%nat. now rewrite Qc_of_nat_plus, Qc_of_nat_1.
Qed.

Lemma sum_bounds (lo hi : Qc) (s : list Qc) :
  (forall y, In y s -> lo <= y /\ y <= hi) ->
  Pandas.Qc_of_nat (length s) * lo <= Pandas.sum s /\
  Pandas.sum s <= Pandas.Qc_of_nat (length s) * hi.
Proof.
  induction s as [|x r IH]; intros H.
  - simpl. rewrite Qc_of_nat_0.
    replace (0 * lo) with 0 by ring. replace (0 * hi) with 0 by ring.
    unfold Pandas.sum. simpl. split; apply Qcle_refl.
  - destruct IH as [IHlo IHhi]; [intros y Hy; apply H; right; exact Hy|].
    destruct (H x (or_introl eq_refl)) as [Hlo Hhi].
    change (length (x :: r)) with (S (length r)). rewrite Qc_of_nat_S.
    change (Pandas.sum (x :: r)) with (x + Pandas.sum r).
    replace ((1 + Pandas.Qc_of_nat (length r)) * lo)
      with (lo + Pandas.Qc_of_nat (length r) * lo) by ring.
    replace ((1 + Pandas.Qc_of_nat (length r)) * hi)
      with (hi + Pandas.Qc_of_nat (length r) * hi) by ring.
    split; apply Qcplus_le_compat; assumption.
Qed.

(** The mean of a non-empty column lies between any bounds of its
    values. *)
Lemma mean_between (lo hi : Qc) (s : list Qc) :
  s <> [] ->
  (forall y, In y s -> lo <= y /\ y <= hi) ->
  exists v, Pandas.mean s = Fin v /\ lo <= v /\ v <= hi.
Proof.
  intros Hs H. rewrite (mean_nonempty Hs). eexists. split; [reflexivity|].
  destruct (@sum_bounds lo hi s H) as [Blo Bhi].
  assert (P : 0 < Pandas.Qc_of_nat (length s)).
  { rewrite <- Qc_of_nat_0. apply Qc_of_nat_lt.
    destruct s; [congruence | simpl; lia]. }
  split.
  - apply Qcdiv_le_lower; [exact P|].
    replace (lo * Pandas.Qc_of_nat (length s))
      with (Pandas.Qc_of_nat (length s) * lo) by ring. exact Blo.
  - apply Qcdiv_le_upper; [exact P|].
    replace (hi * Pandas.Qc_of_nat (length s))
      with (Pandas.Qc_of_nat (length s) * hi) by ring. exact Bhi.
Qed.


Lemma derived_window_le (n : nat) : (1 <= n -> derived_window n <= n)%nat.
Proof.
  intros H. unfold derived_window.
  assert (n / 50 <= n)%nat by (apply Nat.Div0.div_le_upper_bound; lia). lia.
Qed.

(** X6.  With the window the script derives, the rolling average of a
    non-empty series is missing at the first [w - 1] positions and at no
    other: the window never exceeds the series, so from position [w - 1] on
    every value is a number, the last one included. *)
Theorem rolling_missing_prefix (s : Pandas.Series) :
  s <> [] ->
  let n := length s in
  let w := derived_window n in
  (1 <= w <= n)%nat /\
  (forall i, (i < n)%nat ->
     is_finite (nth i (Pandas.rolling_mean w s) NaN) = (w - 1 <=? i)%nat) /\
  is_finite (nth (n - 1) (Pandas.rolling_mean w s) NaN) = true.
Proof.
  intros Hs n w.
  assert (Hn : (1 <= n)%nat) by (unfold n; destruct s; [congruence|simpl; lia]).
  pose proof (derived_window_pos n) as W1.
  pose proof (derived_window_le Hn) as W2. fold w in W1, W2.
  assert (F : forall i, (i < n)%nat ->
            is_finite (nth i (Pandas.rolling_mean w s) NaN)
            = (w - 1 <=? i)%nat).
  { intros i Hi. rewrite rolling_mean_nth by exact Hi.
    destruct (S i <? w)%nat eqn:E.
    - apply Nat.ltb_lt in E. symmetry. apply Nat.leb_gt. lia.
    - apply Nat.ltb_ge in E. rewrite mean_nonempty.
      + symmetry. apply Nat.leb_le. lia.
      + intro H. apply (f_equal (@length Qc)) in H.
        rewrite trailing_length in H by assumption. simpl in H. lia. }
  split; [lia|]. split; [exact F|].
  rewrite F by lia. apply Nat.leb_le. lia.
Qed.

Lemma rolling_missing_prefix_witness :
  let n := length Examples.hundred in
  let w := derived_window n in
  (1 <= w <= n)%nat /\
  (forall i, (i < n)%nat ->
     is_finite (nth i (Pandas.rolling_mean w Examples.hundred) NaN)
     = (w - 1 <=? i)%nat) /\
  is_finite (nth (n - 1) (Pandas.rolling_mean w Examples.hundred) NaN) = true.
Proof.
  apply (@rolling_missing_prefix Examples.hundred). discriminate.
Defined.



End Ranges.

(** ** The summary statistics of the sustained chart *)

Section SustainedSummary.

Import GenerateCharts Outcome.

Local Open Scope Qc_scope.

Lemma hundred_nonneg : 0 <= Q2Qc (100 # 1).
Proof. apply Qc_leb_le. reflexivity. Qed.

(** X9.  When every throughput value of the 10-second test is at least one
    operation per second, the variance percentage of the saved figure is a
    non-negative number, and it is zero when all the values are equal. *)
Theorem variance_of_positive_series d df :
  sustained_timeseries_csv d = Some df ->
  let df_10s :=
    filter (fun r => String.eqb (Sustained.test_name r) target_test) df in
  let throughput := map Sustained.throughput_ops_per_sec df_10s in
  df_10s <> [] ->
  (forall y, In y throughput -> 1 <= y) ->
  exists fig v,
    run (plot_sustained_timeseries d)
    = ([Call SustainedTimeseries;
        Savefig SustainedTimeseries (FigSustained fig);
        PrintGenerated SustainedTimeseries], Ok tt) /\
    variance fig = Fin v /\
    0 <= v /\
    ((forall x y, In x throughput -> In y throughput -> x = y) -> v = 0).
Proof.
  intros Hfile df_10s throughput Hne Hone.
  assert (Hpos : forall y, In y throughput -> 0 < y).
  { intros y Hy. apply Qclt_le_trans with 1; [|apply Hone, Hy].
    apply Qc_ltb_lt. reflexivity. }
  destruct (plot_sustained_timeseries_run d Hfile Hne)
    as [fig [Hrun [_ [_ [_ [Havg [Hmin [Hmax Hvar]]]]]]]].
  fold df_10s in Havg, Hmin, Hmax. fold throughput in Havg, Hmin, Hmax.
  assert (Hs : throughput <> []).
  { unfold throughput. destruct df_10s; [congruence | discriminate]. }
  destruct (max_spec Hs) as [mx [Emx [Imx Umx]]].
  destruct (min_spec Hs) as [mn [Emn [Imn Lmn]]].
  destruct (@mean_between mn mx throughput Hs) as [a [Ea [Alo Ahi]]].
  { intros y Hy. split; [apply Lmn | apply Umx]; exact Hy. }
  assert (Pa : 0 < a) by (eapply Qclt_le_trans; [apply Hpos, Imn | exact Alo]).
  pose proof (Qcpos_neq_0 Pa) as Na.
  assert (Hle : mn <= mx) by (apply Lmn, Imx).
  assert (D : 0 <= mx - mn).
  { apply Qcle_minus_iff in Hle. exact Hle. }
  exists fig, ((mx - mn) / a * Q2Qc (100 # 1)).
  split; [exact Hrun|]. split.
  { rewrite Hvar, Hmax, Hmin, Havg, Emx, Emn, Ea.
    rewrite (variance_expression a Hle).
    replace (Qc_eqb a 0) with false by (symmetry; apply Qc_eqb_neq, Na).
    reflexivity. }
  split.
  { replace 0 with (0 * Q2Qc (100 # 1)) by ring.
    apply Qcmult_le_compat_r; [|exact hundred_nonneg].
    apply Qcdiv_le_lower; [exact Pa|].
    replace (0 * a) with 0 by ring. exact D. }
  intros Hall. rewrite (Hall mx mn Imx Imn). field. exact Na.
Qed.

Lemma variance_of_positive_series_witness :
  let df_10s :=
    filter (fun r => String.eqb (Sustained.test_name r) target_test)
           Examples.sustained_rows in
  let throughput := map Sustained.throughput_ops_per_sec df_10s in
  exists fig v,
    run (plot_sustained_timeseries Examples.dir_sustained)
    = ([Call SustainedTimeseries;
        Savefig SustainedTimeseries (FigSustained fig);
        PrintGenerated SustainedTimeseries], Ok tt) /\
    variance fig = Fin v /\
    0 <= v /\
    ((forall x y, In x throughput -> In y throughput -> x = y) -> v = 0).
Proof.
  apply (@variance_of_positive_series Examples.dir_sustained
           Examples.sustained_rows eq_refl).
  - discriminate.
  - simpl. intros y [<-|[<-|[]]]; apply Qc_leb_le; reflexivity.
Defined.

End SustainedSummary.

(** ** The sweep annotation *)

Section SweepAnnotation.

Import GenerateCharts Outcome.

Local Open Scope Qc_scope.

(** X10.  On a sweep table with rows, the point that the annotation's arrow
    points at is one of the points of the plotted line, and no point of the
    line is higher. *)
Theorem optimum_is_highest_plotted_point d df :
  buffer_sizes_csv d = Some df ->
  df <> [] ->
  exists fig,
    run (plot_buffer_sizes d)
    = ([Call BufferSizes; Savefig BufferSizes (FigSweep fig);
        PrintGenerated BufferSizes], Ok tt) /\
    annotate_xy fig = (optimal_size fig, optimal_throughput fig) /\
    In (annotate_xy fig) (sweep_line fig) /\
    (forall x y, In (x, y) (sweep_line fig) -> y <= optimal_throughput fig).
Proof.
  intros Hfile Hne.
  destruct (plot_buffer_sizes_run d Hfile Hne)
    as [fig [i [r [Hrun [Hi [Hr [Hline [Hk [Hv [Hxy _]]]]]]]]]].
  destruct (idxmax_spec (s:=map Sweep.throughput_ops_per_sec df))
    as [k [Hk' [_ [Hmax _]]]].
  { destruct df; [congruence | discriminate]. }
  assert (k = i) by congruence. subst k.
  pose proof (nth_error_map_nth Sweep.throughput_ops_per_sec _ _ Hr) as Hnth.
  assert (E : sweep_line fig
              = map (fun r => (Sweep.buffer_size r,
                       Sweep.throughput_ops_per_sec r / million)) df).
  { rewrite Hline, map_map. apply combine_map_same. }
  exists fig. split; [exact Hrun|]. split; [exact Hxy|]. split.
  - rewrite Hxy, Hk, Hv, E.
    apply (in_map (fun r => (Sweep.buffer_size r,
                             Sweep.throughput_ops_per_sec r / million))).
    eapply nth_error_In, Hr.
  - intros x y Hin. rewrite E in Hin. apply in_map_iff in Hin.
    destruct Hin as [r' [Heq Hr']]. injection Heq as _ <-.
    apply In_nth_error in Hr'. destruct Hr' as [j Hj].
    rewrite Hv. apply Qcdiv_le_compat; [exact million_pos|].
    rewrite <- Hnth, <- (nth_error_map_nth _ _ _ Hj).
    apply Hmax. rewrite length_map. apply nth_error_Some. congruence.
Qed.

Lemma optimum_is_highest_plotted_point_witness :
  exists fig,
    run (plot_buffer_sizes Examples.dir_sweep_only)
    = ([Call BufferSizes; Savefig BufferSizes (FigSweep fig);
        PrintGenerated BufferSizes], Ok tt) /\
    annotate_xy fig = (optimal_size fig, optimal_throughput fig) /\
    In (annotate_xy fig) (sweep_line fig) /\
    (forall x y, In (x, y) (sweep_line fig) -> y <= optimal_throughput fig).
Proof.
  apply (@optimum_is_highest_plotted_point Examples.dir_sweep_only
           Examples.sweep_rows eq_refl).
  discriminate.
Defined.

End SweepAnnotation.

(** ** Order and range of quantiles *)

Section QuantileOrder.

Import GenerateCharts Outcome Pandas.

Local Open Scope Qc_scope.

Lemma Qcplus_le_reg_l (a x y : Qc) : a + x <= a + y -> x <= y.
Proof.
  intros H. apply (Qcplus_le_compat _ _ (- a) (- a)) in H;
    [|apply Qcle_refl].
  replace (a + x + - a) with x in H by ring.
  replace (a + y + - a) with y in H by ring. exact H.
Qed.

(** The rank of [p] among [n] sorted samples and the value there. *)
Lemma quantile_rank (s : Series) (p : Qc) :
  s <> [] -> 0 <= p -> p <= 1 ->
  let arr := sorted Qc_leb s in
  let n := length s in
  exists (k : nat) (g : Qc),
    (k <= n - 1)%nat /\ 0 <= g /\ g < 1 /\
    Qc_of_nat (n - 1) * p = Qc_of_nat k + g /\
    quantile s p
    = Ok (Fin (nth k arr 0
               + (nth (Nat.min (S k) (n - 1)) arr 0 - nth k arr 0) * g)).
Proof.
  intros Hs H0 H1 arr n.
  assert (Hn : (1 <= n)%nat).
  { unfold n. destruct s; [congruence | simpl; lia]. }
  rewrite (quantile_unfold Hs H0 H1). cbv zeta. fold arr n.
  destruct (virtual_index_range (n - 1) H0 H1) as [Vlo Vhi].
  set (h := Qc_of_nat (n - 1) * p) in *.
  destruct (Qc_leb (Qc_of_nat (n - 1)) h) eqn:E.
  - apply Qc_leb_le in E.
    assert (Eh : h = Qc_of_nat (n - 1)) by (apply Qcle_antisym; assumption).
    exists (n - 1)%nat, 0.
    replace (Nat.min (S (n - 1)) (n - 1)) with (n - 1)%nat by lia.
    split; [lia|]. split; [apply Qcle_refl|].
    split; [apply Qc_ltb_lt; reflexivity|].
    split; [rewrite Eh; ring|].
    do 2 f_equal. ring.
  - apply Qc_leb_false_lt in E.
    destruct (Qc_floor_nat Vlo) as [Flo Fhi].
    set (k := Z.to_nat (Qfloor h)) in *.
    assert (Hk : (k < n - 1)%nat).
    { apply Qc_of_nat_lt. eapply Qcle_lt_trans; eauto. }
    exists k, (h - Qc_of_nat k).
    replace (Nat.min (S k) (n - 1)) with (S k) by lia.
    split; [lia|].
    split; [apply Qcle_minus_iff in Flo; exact Flo|].
    split.
    { apply Qclt_minus_iff in Fhi. apply Qclt_minus_iff.
      replace (1 + - (h - Qc_of_nat k)) with (Qc_of_nat k + 1 + - h) by ring.
      exact Fhi. }
    split; [ring | reflexivity].
Qed.

(** A larger fraction never gives a smaller quantile. *)
Lemma quantile_mono (s : Series) (p q : Qc) :
  s <> [] -> 0 <= p -> p <= q -> q <= 1 ->
  exists a b,
    quantile s p = Ok (Fin a) /\ quantile s q = Ok (Fin b) /\ a <= b.
Proof.
  intros Hs H0 Hpq H1.
  assert (Hp1 : p <= 1) by (eapply Qcle_trans; eauto).
  assert (H0q : 0 <= q) by (eapply Qcle_trans; eauto).
  destruct (quantile_rank Hs H0 Hp1) as [k1 [g1 [K1 [G1 [G1' [R1 Q1]]]]]].
  destruct (quantile_rank Hs H0q H1) as [k2 [g2 [K2 [G2 [G2' [R2 Q2]]]]]].
  set (arr := sorted Qc_leb s) in *. set (n := length s) in *.
  eexists. eexists. split; [exact Q1|]. split; [exact Q2|].
  assert (Hn : (1 <= n)%nat).
  { unfold n. destruct s; [congruence | simpl; lia]. }
  assert (Hh : Qc_of_nat k1 + g1 <= Qc_of_nat k2 + g2).
  { rewrite <- R1, <- R2.
    replace (Qc_of_nat (n - 1) * p) with (p * Qc_of_nat (n - 1)) by ring.
    replace (Qc_of_nat (n - 1) * q) with (q * Qc_of_nat (n - 1)) by ring.
    apply Qcmult_le_compat_r; [exact Hpq | apply Qc_of_nat_nonneg]. }
  assert (Hk : (k1 <= k2)%nat).
  { assert (L : Qc_of_nat k1 < Qc_of_nat (k2 + 1)).
    { rewrite Qc_of_nat_plus, Qc_of_nat_1.
      apply Qcle_lt_trans with (Qc_of_nat k1 + g1).
      - replace (Qc_of_nat k1) with (Qc_of_nat k1 + 0) at 1 by ring.
        apply Qcplus_le_compat; [apply Qcle_refl | exact G1].
      - apply Qcle_lt_trans with (Qc_of_nat k2 + g2); [exact Hh|].
        apply Qclt_minus_iff.
        replace (Qc_of_nat k2 + 1 + - (Qc_of_nat k2 + g2)) with (1 + - g2)
          by ring.
        apply Qclt_minus_iff in G2'. exact G2'. }
    apply Qc_of_nat_lt in L. lia. }
  assert (S1 : nth k1 arr 0 <= nth (Nat.min (S k1) (n - 1)) arr 0)
    by (apply sorted_nth_le; fold n; lia).
  assert (S2 : nth k2 arr 0 <= nth (Nat.min (S k2) (n - 1)) arr 0)
    by (apply sorted_nth_le; fold n; lia).
  destruct (lerp_between S1 G1 (Qclt_le_weak _ _ G1')) as [_ U1].
  destruct (lerp_between S2 G2 (Qclt_le_weak _ _ G2')) as [L2 _].
  destruct (Nat.eq_dec k1 k2) as [->|Hne].
  - apply Qcplus_le_reg_l in Hh.
    apply Qcplus_le_compat; [apply Qcle_refl|].
    replace ((nth (Nat.min (S k2) (n - 1)) arr 0 - nth k2 arr 0) * g1)
      with (g1 * (nth (Nat.min (S k2) (n - 1)) arr 0 - nth k2 arr 0)) by ring.
    replace ((nth (Nat.min (S k2) (n - 1)) arr 0 - nth k2 arr 0) * g2)
      with (g2 * (nth (Nat.min (S k2) (n - 1)) arr 0 - nth k2 arr 0)) by ring.
    apply Qcmult_le_compat_r; [exact Hh|].
    apply Qcle_minus_iff in S2. exact S2.
  - eapply Qcle_trans; [exact U1|]. eapply Qcle_trans; [|exact L2].
    apply sorted_nth_le; fold n; lia.
Qed.

Lemma sorted_first_is_min (s : Series) :
  s <> [] -> Pandas.min s = Fin (nth 0 (sorted Qc_leb s) 0).
Proof.
  intros Hs. destruct (min_spec Hs) as [m [Em [Im Lm]]]. rewrite Em. f_equal.
  assert (Hn : (0 < length s)%nat) by (destruct s; [congruence|simpl; lia]).
  apply Qcle_antisym.
  - apply Lm. apply (sorted_In Qc_leb). apply nth_In.
    rewrite sorted_length. exact Hn.
  - apply (sorted_In Qc_leb) in Im.
    destruct (In_nth _ _ 0 Im) as [j [Hj <-]].
    rewrite sorted_length in Hj. apply sorted_nth_le; lia.
Qed.

Lemma sorted_last_is_max (s : Series) :
  s <> [] -> Pandas.max s = Fin (nth (length s - 1) (sorted Qc_leb s) 0).
Proof.
  intros Hs. destruct (max_spec Hs) as [m [Em [Im Um]]]. rewrite Em. f_equal.
  assert (Hn : (0 < length s)%nat) by (destruct s; [congruence|simpl; lia]).
  apply Qcle_antisym.
  - apply (sorted_In Qc_leb) in Im.
    destruct (In_nth _ _ 0 Im) as [j [Hj <-]].
    rewrite sorted_length in Hj. apply sorted_nth_le; lia.
  - apply Um. apply (sorted_In Qc_leb). apply nth_In.
    rewrite sorted_length. lia.
Qed.

Lemma quantile_at_0 (s : Series) :
  s <> [] -> quantile s 0 = Ok (Pandas.min s).
Proof.
  intros Hs. rewrite (sorted_first_is_min Hs).
  destruct (@quantile_rank s 0 Hs) as [k [g [K [G [G' [R Q]]]]]];
    [apply Qcle_refl | apply Qc_leb_le; reflexivity|].
  rewrite Q.
  replace (Qc_of_nat (length s - 1) * 0) with 0 in R by ring.
  assert (Hk : k = 0%nat).
  { assert (L : Qc_of_nat k <= Qc_of_nat 0).
    { rewrite Qc_of_nat_0, R.
      replace (Qc_of_nat k) with (Qc_of_nat k + 0) at 1 by ring.
      apply Qcplus_le_compat; [apply Qcle_refl | exact G]. }
    apply Qc_of_nat_le in L. lia. }
  subst k. rewrite Qc_of_nat_0 in R.
  assert (g = 0) by (rewrite R; ring). subst g.
  do 2 f_equal. ring.
Qed.

Lemma quantile_at_1 (s : Series) :
  s <> [] -> quantile s 1 = Ok (Pandas.max s).
Proof.
  intros Hs. rewrite (sorted_last_is_max Hs).
  rewrite quantile_unfold;
    [|exact Hs|apply Qc_leb_le; reflexivity|apply Qcle_refl].
  cbv zeta.
  replace (Qc_of_nat (length s - 1) * 1) with (Qc_of_nat (length s - 1))
    by ring.
  rewrite (proj2 (Qc_leb_le _ _) (Qcle_refl _)). reflexivity.
Qed.

End QuantileOrder.

(** ** The latency chart *)

Section LatencyChart.

Import GenerateCharts Outcome.

Local Open Scope Qc_scope.

(** X11.  On a non-empty column, quantiles are ordered like their
    fractions and stay within the data: for [0 <= p <= q <= 1] the
    [p]-quantile is at most the [q]-quantile, both lie between the minimum
    and the maximum, the 0-quantile is the minimum and the 1-quantile the
    maximum. *)
Theorem quantile_ordered_within_range (s : Pandas.Series) (p q : Qc) :
  s <> [] -> 0 <= p -> p <= q -> q <= 1 ->
  exists mn a b mx,
    Pandas.min s = Fin mn /\
    Pandas.max s = Fin mx /\
    Pandas.quantile s 0 = Ok (Fin mn) /\
    Pandas.quantile s p = Ok (Fin a) /\
    Pandas.quantile s q = Ok (Fin b) /\
    Pandas.quantile s 1 = Ok (Fin mx) /\
    mn <= a /\ a <= b /\ b <= mx.
Proof.
  intros Hs H0 Hpq H1.
  assert (Hp1 : p <= 1) by (eapply Qcle_trans; eauto).
  assert (H0q : 0 <= q) by (eapply Qcle_trans; eauto).
  destruct (quantile_mono Hs (Qcle_refl 0) H0 Hp1) as [z [a [Qz [Qa Hza]]]].
  destruct (quantile_mono Hs H0 Hpq H1) as [a' [b [Qa' [Qb Hab]]]].
  destruct (quantile_mono Hs H0q H1 (Qcle_refl 1)) as [b' [o [Qb' [Qo Hbo]]]].
  assert (a' = a) by congruence. assert (b' = b) by congruence. subst a' b'.
  pose proof (quantile_at_0 Hs) as Z. pose proof (quantile_at_1 Hs) as O.
  rewrite Qz in Z. rewrite Qo in O.
  injection Z as Z. injection O as O.
  exists z, a, b, o. repeat split; auto.
Qed.

Lemma quantile_ordered_within_range_witness :
  exists mn a b mx,
    Pandas.min [Examples.qz 30; Examples.qz 10; Examples.qz 20] = Fin mn /\
    Pandas.max [Examples.qz 30; Examples.qz 10; Examples.qz 20] = Fin mx /\
    Pandas.quantile [Examples.qz 30; Examples.qz 10; Examples.qz 20] 0
    = Ok (Fin mn) /\
    Pandas.quantile [Examples.qz 30; Examples.qz 10; Examples.qz 20]
      (Q2Qc (1 # 4)) = Ok (Fin a) /\
    Pandas.quantile [Examples.qz 30; Examples.qz 10; Examples.qz 20]
      (Q2Qc (3 # 4)) = Ok (Fin b) /\
    Pandas.quantile [Examples.qz 30; Examples.qz 10; Examples.qz 20] 1
    = Ok (Fin mx) /\
    mn <= a /\ a <= b /\ b <= mx.
Proof.
  apply (@quantile_ordered_within_range
           [Examples.qz 30; Examples.qz 10; Examples.qz 20]
           (Q2Qc (1 # 4)) (Q2Qc (3 # 4))).
  - discriminate.
  - apply Qc_leb_le. reflexivity.
  - apply Qc_leb_le. reflexivity.
  - apply Qc_leb_le. reflexivity.
Defined.

(** X12.  On a latency table with at least one sample,
    [plot_latency_distribution] saves its figure without raising: the
    histogram takes every sample into 50 bins, and the three reference
    lines are numbers in the order P50 <= P99 <= P99.9, none below the
    smallest or above the largest sample. *)
Theorem latency_reference_lines_ordered d (s : Pandas.Series) :
  latency_samples_csv d = Some s ->
  s <> [] ->
  exists fig mn a b c mx,
    run (plot_latency_distribution d)
    = ([Call LatencyDistribution;
        Savefig LatencyDistribution (FigLatency fig);
        PrintGenerated LatencyDistribution], Ok tt) /\
    hist_samples fig = s /\ hist_bins fig = 50%nat /\
    Pandas.min s = Fin mn /\ Pandas.max s = Fin mx /\
    p50 fig = Fin a /\ p99 fig = Fin b /\ p999 fig = Fin c /\
    mn <= a /\ a <= b /\ b <= c /\ c <= mx.
Proof.
  intros Hfile Hs.
  assert (R0 : 0 <= Q2Qc (50 # 100)) by (apply Qc_leb_le; reflexivity).
  assert (R1 : Q2Qc (50 # 100) <= Q2Qc (99 # 100))
    by (apply Qc_leb_le; reflexivity).
  assert (R2 : Q2Qc (99 # 100) <= Q2Qc (999 # 1000))
    by (apply Qc_leb_le; reflexivity).
  assert (R3 : Q2Qc (999 # 1000) <= 1) by (apply Qc_leb_le; reflexivity).
  assert (R4 : Q2Qc (99 # 100) <= 1) by (apply Qc_leb_le; reflexivity).
  assert (R5 : 0 <= Q2Qc (99 # 100)) by (apply Qc_leb_le; reflexivity).
  assert (R6 : 0 <= Q2Qc (999 # 1000)) by (apply Qc_leb_le; reflexivity).
  destruct (quantile_mono Hs (Qcle_refl 0) R0
              (Qcle_trans _ _ _ R1 R4)) as [z [a [Qz [Qa Hza]]]].
  destruct (quantile_mono Hs R0 R1 R4) as [a' [b [Qa' [Qb Hab]]]].
  destruct (quantile_mono Hs R5 R2 R3) as [b' [c [Qb' [Qc' Hbc]]]].
  destruct (quantile_mono Hs R6 R3 (Qcle_refl 1)) as [c' [o [Qc'' [Qo Hco]]]].
  assert (a' = a) by congruence. assert (b' = b) by congruence.
  assert (c' = c) by congruence. subst a' b' c'.
  pose proof (quantile_at_0 Hs) as Z. pose proof (quantile_at_1 Hs) as O.
  rewrite Qz in Z. rewrite Qo in O.
  injection Z as Z. injection O as O.
  unfold plot_latency_distribution, run, bind, emit, lift.
  rewrite Hfile, Qa, Qb, Qc'.
  eexists. exists z, a, b, c, o. split; [reflexivity|].
  simpl. repeat split; auto.
Qed.

Lemma latency_reference_lines_ordered_witness :
  exists fig mn a b c mx,
    run (plot_latency_distribution Examples.dir_empty_sweep)
    = ([Call LatencyDistribution;
        Savefig LatencyDistribution (FigLatency fig);
        PrintGenerated LatencyDistribution], Ok tt) /\
    hist_samples fig = [Examples.qz 10; Examples.qz 20] /\
    hist_bins fig = 50%nat /\
    Pandas.min [Examples.qz 10; Examples.qz 20] = Fin mn /\
    Pandas.max [Examples.qz 10; Examples.qz 20] = Fin mx /\
    p50 fig = Fin a /\ p99 fig = Fin b /\ p999 fig = Fin c /\
    mn <= a /\ a <= b /\ b <= c /\ c <= mx.
Proof.
  apply (@latency_reference_lines_ordered Examples.dir_empty_sweep
           [Examples.qz 10; Examples.qz 20] eq_refl).
  discriminate.
Defined.

End LatencyChart.

(** ** Names and the locator *)

Section LocatorNames.

Import GenerateCharts Outcome.

Local Open Scope string_scope.

Lemma prefix_split (p s : string) :
  String.prefix p s = true -> exists suffix, s = p ++ suffix.
Proof.
  revert s. induction p as [|a p IH]; intros s H.
  - exists s. reflexivity.
  - destruct s as [|b s]; [discriminate|]. simpl in H.
    destruct (Ascii.ascii_dec a b) as [->|]; [|discriminate].
    destruct (IH s H) as [suffix ->]. exists suffix. reflexivity.
Qed.

Lemma prefix_append (p suffix : string) : String.prefix p (p ++ suffix) = true.
Proof.
  induction p as [|a p IH]; simpl.
  - destruct suffix; reflexivity.
  - destruct (Ascii.ascii_dec a a); [exact IH | congruence].
Qed.

(** Behind a common prefix, names compare as their suffixes do. *)
Lemma leb_append (p a b : string) : (p ++ a <=? p ++ b) = (a <=? b).
Proof.
  unfold String.leb. induction p as [|c p IH]; simpl; [reflexivity|].
  unfold Ascii.compare. rewrite N.compare_refl. exact IH.
Qed.

(** X14.  The directory that the locator chooses is an entry of the working
    directory named [benchmark_results_] followed by a suffix, and that
    suffix is the greatest, in lexicographic order, among the suffixes of
    all entries so named: with timestamp suffixes, the most recent run.
    Entries with other names play no part. *)
Theorem locator_picks_greatest_suffix (fs : FileSystem) (latest : string) :
  latest_dir fs = Ok latest ->
  In latest (cwd_entries fs) /\
  exists suffix,
    latest = "benchmark_results_" ++ suffix /\
    forall suffix',
      In ("benchmark_results_" ++ suffix') (cwd_entries fs) ->
      (suffix' <=? suffix) = true.
Proof.
  intros Hlast.
  assert (Hloc : located fs = true).
  { unfold located. unfold latest_dir in Hlast.
    destruct (glob_results fs); [discriminate Hlast | reflexivity]. }
  destruct (latest_dir_spec fs Hloc) as [l [Hl [Hin Hub]]].
  assert (l = latest) by congruence. subst l.
  unfold glob_results in Hin. apply filter_In in Hin.
  destruct Hin as [Hentry Hpre].
  split; [exact Hentry|].
  destruct (prefix_split _ _ Hpre) as [suffix ->].
  exists suffix. split; [reflexivity|].
  intros suffix' Hin'. rewrite <- (leb_append "benchmark_results_").
  apply Hub. unfold glob_results. apply filter_In.
  split; [exact Hin' | apply prefix_append].
Qed.

Lemma locator_picks_greatest_suffix_witness :
  In "benchmark_results_2024-03-05" (cwd_entries Examples.fs_three_runs) /\
  exists suffix,
    "benchmark_results_2024-03-05" = "benchmark_results_" ++ suffix /\
    forall suffix',
      In ("benchmark_results_" ++ suffix')
         (cwd_entries Examples.fs_three_runs) ->
      (suffix' <=? suffix) = true.
Proof.
  apply (@locator_picks_greatest_suffix Examples.fs_three_runs
           "benchmark_results_2024-03-05").
  reflexivity.
Defined.

End LocatorNames.
